(** * HTMLTextPipe: the per-renderable GPU text cache of the HTML text pipe

    A shallow embedding of [src/rendering/text/html/HTMLTextPipe.ts] and the
    properties of its record lifecycle: validation, the synchronous update
    step, the asynchronous regeneration and its completion, destruction of a
    renderable and teardown of the pipe.

    JavaScript objects are shared by reference: the records of [_gpuText] and
    the pooled [BatchableSprite]s live in two stores addressed by position,
    and a suspended [_updateGpuText] keeps the address of the record it
    captured before its [await].  Numbers are modelled as [Z]. *)

From Stdlib Require Import ZArith String List Bool Lia.
From stdpp Require Import base option list gmap sorting strings.

Open Scope Z_scope.
Open Scope string_scope.
Open Scope list_scope.
Open Scope nat_scope.

(** ** Data *)

(** What a faulting statement throws, and what a rejected promise carries. *)
Inductive Error : Type :=
| TypeError
| Rejected (reason : string).

(** [Texture.EMPTY] and the textures the text texture provider hands out. *)
Inductive Texture : Type :=
| EMPTY
| Managed (id : nat).

Definition Bounds : Type := list Z.

Record HTMLTextStyle : Type := mkStyle {
  padding : Z
}.

(** [_getKey()] is a method of TextView, which the pipe imports as a type
    only: the view carries the fingerprint that call returns, and a content
    or style change replaces it. *)
Record TextView : Type := mkView {
  text : string;
  resolution : option Z;
  anchor : Z * Z;
  _style : HTMLTextStyle;
  _didUpdate : bool;
  fingerprint : string
}.

Definition _getKey (v : TextView) : string := fingerprint v.

(** A renderable of the scene; [destroyedListeners] counts the handlers that
    [renderable.on('destroyed', ...)] has registered on it. *)
Record Renderable : Type := mkRenderable {
  view : TextView;
  destroyedListeners : nat
}.

Module BatchableSprite.
Record t : Type := mk {
  sprite : option nat;
  texture : Texture;
  bounds : Bounds
}.
End BatchableSprite.

(** The value type of [_gpuText]; [batchableSprite] is the address of the
    pooled entry in the sprite store. *)
Record GpuText : Type := mkGpuText {
  textureNeedsUploading : bool;
  generatingTexture : bool;
  texture : Texture;
  currentKey : string;
  batchableSprite : nat
}.

Record Renderer : Type := mkRenderer {
  rendererResolution : Z
}.

(** An [_updateGpuText] call parked at its [await]: the request it waits for,
    the renderable and the record it captured, and the key it asked for. *)
Record Suspended : Type := mkSuspended {
  request : nat;
  s_renderable : nat;
  s_gpuText : nat;
  s_key : string
}.

(** Calls to the collaborators, most recent first. *)
Inductive Event : Type :=
| StyleUpdate (uid : nat)
| PoolGet (entry : nat)
| PoolReturn (entry : nat)
| OnDestroyed (uid : nat)
| DecreaseReferenceCount (key : string)
| GetManagedTexture (txt : string) (res : Z) (style : HTMLTextStyle)
    (key : string) (req : nat)
| ManagedTextureReady (req : nat) (key : string) (tex : Texture)
| ViewOnUpdate (uid : nat)
| AddToBatch (entry : nat)
| UpdateElement (entry : nat)
| ConsoleError (e : Error).

(** The pipe ([_gpuText], [_renderer]; [None] is JavaScript's [null], and an
    entry [Some None] of the map is a key whose value is [null]), the two
    object stores, the pool's free list, the scene, the suspended calls and
    the log. *)
Record State : Type := mkState {
  _gpuText : option (gmap nat (option nat));
  _renderer : option Renderer;
  heap : list GpuText;
  sprites : list BatchableSprite.t;
  pool : list nat;
  scene : gmap nat Renderable;
  pending : list Suspended;
  nextRequest : nat;
  log : list Event
}.

Definition set_gpuText (m : option (gmap nat (option nat))) (s : State) : State :=
  mkState m (_renderer s) (heap s) (sprites s) (pool s) (scene s) (pending s)
    (nextRequest s) (log s).

Definition set_renderer (r : option Renderer) (s : State) : State :=
  mkState (_gpuText s) r (heap s) (sprites s) (pool s) (scene s) (pending s)
    (nextRequest s) (log s).

Definition set_heap (h : list GpuText) (s : State) : State :=
  mkState (_gpuText s) (_renderer s) h (sprites s) (pool s) (scene s) (pending s)
    (nextRequest s) (log s).

Definition set_sprites (l : list BatchableSprite.t) (s : State) : State :=
  mkState (_gpuText s) (_renderer s) (heap s) l (pool s) (scene s) (pending s)
    (nextRequest s) (log s).

Definition set_pool (p : list nat) (s : State) : State :=
  mkState (_gpuText s) (_renderer s) (heap s) (sprites s) p (scene s) (pending s)
    (nextRequest s) (log s).

Definition set_scene (c : gmap nat Renderable) (s : State) : State :=
  mkState (_gpuText s) (_renderer s) (heap s) (sprites s) (pool s) c (pending s)
    (nextRequest s) (log s).

Definition set_pending (p : list Suspended) (s : State) : State :=
  mkState (_gpuText s) (_renderer s) (heap s) (sprites s) (pool s) (scene s) p
    (nextRequest s) (log s).

Definition set_nextRequest (n : nat) (s : State) : State :=
  mkState (_gpuText s) (_renderer s) (heap s) (sprites s) (pool s) (scene s)
    (pending s) n (log s).

Definition set_log (l : list Event) (s : State) : State :=
  mkState (_gpuText s) (_renderer s) (heap s) (sprites s) (pool s) (scene s)
    (pending s) (nextRequest s) l.

(** [new HTMLTextPipe(renderer)] in an empty scene. *)
Definition init (r : Renderer) : State :=
  mkState (Some ∅) (Some r) [] [] [] ∅ [] 0 [].

(** ** Statements that may throw *)

Inductive outcome (A : Type) : Type :=
| Ok (a : A) (s : State)
| Throw (e : Error) (s : State).

Arguments Ok {A} a s.
Arguments Throw {A} e s.

Definition M (A : Type) : Type := State -> outcome A.

Definition ret {A : Type} (a : A) : M A := fun s => Ok a s.

Definition bind {A B : Type} (m : M A) (k : A -> M B) : M B :=
  fun s => match m s with
           | Ok a s' => k a s'
           | Throw e s' => Throw e s'
           end.

Notation "x <- m ;; k" := (bind m (fun x => k))
  (at level 100, m at next level, right associativity).
Notation "m ;; k" := (bind m (fun _ => k))
  (at level 100, right associativity).

Definition throw {A : Type} (e : Error) : M A := fun s => Throw e s.

Definition modify (f : State -> State) : M unit := fun s => Ok tt (f s).

Definition emit (ev : Event) : M unit := modify (fun s => set_log (ev :: log s) s).

Definition state_of {A : Type} (o : outcome A) : State :=
  match o with
  | Ok _ s => s
  | Throw _ s => s
  end.

(** A rejected promise handed to [.catch(e => console.error(e))].  The
    handler runs in a later turn of the event loop; the log takes the error
    at once. *)
Definition catch_console (m : M unit) : M unit :=
  fun s => match m s with
           | Ok _ s' => Ok tt s'
           | Throw e s' => Ok tt (set_log (ConsoleError e :: log s') s')
           end.

(** ** Property reads and writes *)

(** [renderable.view]; a uid the scene does not hold stands for a call that
    was not given a renderable, and the read faults. *)
Definition viewOf (uid : nat) : M TextView :=
  fun s => match scene s !! uid with
           | Some r => Ok (view r) s
           | None => Throw TypeError s
           end.

Definition set_didUpdate (b : bool) (v : TextView) : TextView :=
  mkView (text v) (resolution v) (anchor v) (_style v) b (fingerprint v).

(** [renderable.view.field = value] *)
Definition assign_view (uid : nat) (f : TextView -> TextView) : M unit :=
  _ <- viewOf uid ;;
  modify (fun s =>
    set_scene (alter (fun r => mkRenderable (f (view r)) (destroyedListeners r))
                 uid (scene s)) s).

(** [this._gpuText], about to be indexed. *)
Definition this_gpuText : M (gmap nat (option nat)) :=
  fun s => match _gpuText s with
           | Some m => Ok m s
           | None => Throw TypeError s
           end.

(** [this._renderer], about to be dereferenced. *)
Definition this_renderer : M Renderer :=
  fun s => match _renderer s with
           | Some r => Ok r s
           | None => Throw TypeError s
           end.

(** Reading a record through a reference.  References of the program never
    dangle; an address outside the store has no object behind it. *)
Definition read_gpuText (a : nat) : M GpuText :=
  fun s => match heap s !! a with
           | Some g => Ok g s
           | None => Throw TypeError s
           end.

Definition write_gpuText (a : nat) (g : GpuText) : M unit :=
  modify (fun s => set_heap (<[a := g]> (heap s)) s).

Definition read_sprite (b : nat) : M BatchableSprite.t :=
  fun s => match sprites s !! b with
           | Some sp => Ok sp s
           | None => Throw TypeError s
           end.

Definition write_sprite (b : nat) (sp : BatchableSprite.t) : M unit :=
  modify (fun s => set_sprites (<[b := sp]> (sprites s)) s).

(** [this._gpuText[uid] = v] *)
Definition store_gpuText (uid : nat) (v : option nat) : M unit :=
  m <- this_gpuText ;;
  modify (set_gpuText (Some (<[uid := v]> m))).

(** ** The object pool *)

(** Modelled from the spec: [BigPool] is imported from utils/pool/PoolGroup
    and its code is missing; "acquire(type) → instance, release(instance)" of
    a pool that recycles entries: [get] hands out the entry released last, or
    a new one when none is free.  What a release resets in the entry is left
    out; first-touch initialization assigns every field it reads. *)
Definition BigPool_get : M nat :=
  fun s => match pool s with
           | b :: free => Ok b (set_log (PoolGet b :: log s) (set_pool free s))
           | [] =>
               let b := length (sprites s) in
               Ok b (set_log (PoolGet b :: log s)
                       (set_sprites (sprites s ++ [BatchableSprite.mk None EMPTY []]) s))
           end.

(** Modelled from the spec: the release half of the same pool. *)
Definition BigPool_return (b : nat) : M unit :=
  modify (fun s => set_log (PoolReturn b :: log s) (set_pool (b :: pool s) s)).

(** ** Field assignments *)

Definition set_textureNeedsUploading (b : bool) (g : GpuText) : GpuText :=
  mkGpuText b (generatingTexture g) (texture g) (currentKey g) (batchableSprite g).

Definition set_generatingTexture (b : bool) (g : GpuText) : GpuText :=
  mkGpuText (textureNeedsUploading g) b (texture g) (currentKey g) (batchableSprite g).

Definition set_texture (t : Texture) (g : GpuText) : GpuText :=
  mkGpuText (textureNeedsUploading g) (generatingTexture g) t (currentKey g)
    (batchableSprite g).

Definition set_currentKey (k : string) (g : GpuText) : GpuText :=
  mkGpuText (textureNeedsUploading g) (generatingTexture g) (texture g) k
    (batchableSprite g).

Definition set_sprite_texture (t : Texture) (sp : BatchableSprite.t) : BatchableSprite.t :=
  BatchableSprite.mk (BatchableSprite.sprite sp) t (BatchableSprite.bounds sp).

Definition set_sprite_bounds (b : Bounds) (sp : BatchableSprite.t) : BatchableSprite.t :=
  BatchableSprite.mk (BatchableSprite.sprite sp) (BatchableSprite.texture sp) b.

(** [gpuText.field = value] through the reference [a]. *)
Definition assign_gpuText (a : nat) (f : GpuText -> GpuText) : M unit :=
  g <- read_gpuText a ;;
  write_gpuText a (f g).

Definition assign_sprite (b : nat) (f : BatchableSprite.t -> BatchableSprite.t) : M unit :=
  sp <- read_sprite b ;;
  write_sprite b (f sp).

(** [renderable.on('destroyed', ...)] *)
Definition on_destroyed (uid : nat) : M unit :=
  _ <- viewOf uid ;;
  modify (fun s =>
    set_scene (alter (fun r => mkRenderable (view r) (S (destroyedListeners r)))
                 uid (scene s)) s) ;;
  emit (OnDestroyed uid).

(** Modelled from the spec: [view.onUpdate()] is a method of TextView, whose
    code is missing; it "notif[ies] the renderable's view that it has
    changed", which raises the flag "set whenever text/style mutates". *)
Definition onUpdate (uid : nat) : M unit :=
  assign_view uid (set_didUpdate true) ;;
  emit (ViewOnUpdate uid).

(** The object literal of [_initGpuText] becomes a new record of the store. *)
Definition new_gpuText (g : GpuText) : M nat :=
  fun s => Ok (length (heap s)) (set_heap (heap s ++ [g]) s).

Definition fresh_request : M nat :=
  fun s => Ok (nextRequest s) (set_nextRequest (S (nextRequest s)) s).

(** The call reaches its [await] and is parked. *)
Definition suspend (p : Suspended) : M unit :=
  modify (fun s => set_pending (pending s ++ [p]) s).

Section Pipe.

(** [updateQuadBounds(bounds, anchor, texture, padding)] is imported from
    utils/updateQuadBounds; it is a parameter, and its result is what the
    call leaves in the bounds array it is given. *)
Variable updateQuadBounds : Bounds -> Z * Z -> Texture -> Z -> Bounds.

(** ** The pipe *)

Definition sentinel : string := "--".

Definition _initGpuText (uid : nat) : M nat :=
  _ <- viewOf uid ;;
  emit (StyleUpdate uid) ;;
  b <- BigPool_get ;;
  a <- new_gpuText (mkGpuText false false EMPTY sentinel b) ;;
  write_sprite b (BatchableSprite.mk (Some uid) EMPTY [0; 1; 0; 0]%Z) ;;
  store_gpuText uid (Some a) ;;
  on_destroyed uid ;;
  ret a.

Definition _getGpuText (uid : nat) : M nat :=
  m <- this_gpuText ;;
  match m !! uid with
  | Some (Some a) => ret a
  | _ => _initGpuText uid
  end.

Definition validateRenderable (uid : nat) : M bool :=
  gpuText <- _getGpuText uid ;;
  v <- viewOf uid ;;
  let newKey := _getKey v in
  g <- read_gpuText gpuText ;;
  if textureNeedsUploading g then
    assign_gpuText gpuText (set_textureNeedsUploading false) ;;
    ret true
  else if bool_decide (currentKey g = newKey) then ret false
  else ret true.

(** [_updateGpuText] up to its [await]: what runs inside the caller's turn. *)
Definition _updateGpuText (uid : nat) : M unit :=
  assign_view uid (set_didUpdate false) ;;
  gpuText <- _getGpuText uid ;;
  g <- read_gpuText gpuText ;;
  if generatingTexture g then ret tt
  else
    v <- viewOf uid ;;
    let newKey := _getKey v in
    renderer <- this_renderer ;;
    emit (DecreaseReferenceCount (currentKey g)) ;;
    assign_gpuText gpuText (set_generatingTexture true) ;;
    assign_gpuText gpuText (set_currentKey newKey) ;;
    view <- viewOf uid ;;
    let resolution := default (rendererResolution renderer) (resolution view) in
    req <- fresh_request ;;
    emit (GetManagedTexture (text view) resolution (_style view) (_getKey view) req) ;;
    suspend (mkSuspended req uid gpuText (_getKey view)).

(** [_updateGpuText] after its [await], once the provider has handed over
    [texture]: it goes on with the record it captured. *)
Definition _updateGpuText_resume (p : Suspended) (texture : Texture) : M unit :=
  let gpuText := s_gpuText p in
  g <- read_gpuText gpuText ;;
  let batchableSprite := batchableSprite g in
  assign_gpuText gpuText (set_texture texture) ;;
  assign_sprite batchableSprite (set_sprite_texture texture) ;;
  assign_gpuText gpuText (set_generatingTexture false) ;;
  assign_gpuText gpuText (set_textureNeedsUploading true) ;;
  onUpdate (s_renderable p) ;;
  v <- viewOf (s_renderable p) ;;
  let padding := padding (_style v) in
  sp <- read_sprite batchableSprite ;;
  write_sprite batchableSprite
    (set_sprite_bounds
       (updateQuadBounds (BatchableSprite.bounds sp) (anchor v)
          (BatchableSprite.texture sp) padding) sp).

Definition _updateText (uid : nat) : M unit :=
  v <- viewOf uid ;;
  let newKey := _getKey v in
  gpuText <- _getGpuText uid ;;
  g <- read_gpuText gpuText ;;
  let batchableSprite := batchableSprite g in
  (if bool_decide (currentKey g = newKey) then ret tt
   else catch_console (_updateGpuText uid)) ;;
  assign_view uid (set_didUpdate false) ;;
  v <- viewOf uid ;;
  let padding := padding (_style v) in
  sp <- read_sprite batchableSprite ;;
  write_sprite batchableSprite
    (set_sprite_bounds
       (updateQuadBounds (BatchableSprite.bounds sp) (anchor v)
          (BatchableSprite.texture sp) padding) sp).

Definition addRenderable (uid : nat) : M unit :=
  gpuText <- _getGpuText uid ;;
  g <- read_gpuText gpuText ;;
  let batchableSprite := batchableSprite g in
  v <- viewOf uid ;;
  (if _didUpdate v then _updateText uid else ret tt) ;;
  _ <- this_renderer ;;
  emit (AddToBatch batchableSprite).

(** The batcher of an entry is wired by the batch service when the entry is
    added; the host updates only entries it has added. *)
Definition updateRenderable (uid : nat) : M unit :=
  gpuText <- _getGpuText uid ;;
  g <- read_gpuText gpuText ;;
  let batchableSprite := batchableSprite g in
  v <- viewOf uid ;;
  (if _didUpdate v then _updateText uid else ret tt) ;;
  emit (UpdateElement batchableSprite).

Definition _destroyRenderableById (renderableUid : nat) : M unit :=
  m <- this_gpuText ;;
  _ <- this_renderer ;;
  match m !! renderableUid with
  | Some (Some gpuText) =>
      g <- read_gpuText gpuText ;;
      emit (DecreaseReferenceCount (currentKey g)) ;;
      BigPool_return (batchableSprite g) ;;
      store_gpuText renderableUid None
  | _ => throw TypeError
  end.

Definition destroyRenderable (uid : nat) : M unit :=
  _destroyRenderableById uid.

(** The keys [for (const i in this._gpuText)] enumerates: integer keys come
    in ascending order. *)
Definition ownKeys (m : gmap nat (option nat)) : list nat :=
  merge_sort (≤) ((map_to_list m).*1).

Fixpoint destroy_each (keys : list nat) : M unit :=
  match keys with
  | [] => ret tt
  | i :: rest => _destroyRenderableById i ;; destroy_each rest
  end.

(** [for ... in] over [null] runs no iteration. *)
Definition destroy : M unit :=
  (fun s => match _gpuText s with
            | Some m => destroy_each (ownKeys m) s
            | None => Ok tt s
            end) ;;
  modify (set_gpuText None) ;;
  modify (set_renderer None).

(** ** The host, the scene and the provider *)

(** The renderable emits ['destroyed']: its handlers run in turn, and a
    handler that throws ends the emission. *)
Fixpoint fire_destroyed (n : nat) (uid : nat) : M unit :=
  match n with
  | O => ret tt
  | S n' => destroyRenderable uid ;; fire_destroyed n' uid
  end.

Definition take_pending (req : nat) (l : list Suspended)
  : option (Suspended * list Suspended) :=
  match List.find (fun p => Nat.eqb (request p) req) l with
  | Some p => Some (p, List.filter (fun q => negb (Nat.eqb (request q) req)) l)
  | None => None
  end.

Inductive Action : Type :=
| Spawn (uid : nat) (v : TextView)
| Change (uid : nat) (v : TextView)
| Validate (uid : nat)
| Add (uid : nat)
| Update (uid : nat)
| DestroyRenderable (uid : nat)
| EmitDestroyed (uid : nat)
| Destroy
| Resolve (req : nat) (tex : Texture)
| Reject (req : nat) (e : Error).

Definition exec (a : Action) : M unit :=
  match a with
  | Spawn uid v =>
      modify (fun s => match scene s !! uid with
                       | Some _ => s
                       | None => set_scene (<[uid := mkRenderable v 0]> (scene s)) s
                       end)
  | Change uid v =>
      modify (fun s =>
        set_scene (alter (fun r => mkRenderable (set_didUpdate true v)
                                     (destroyedListeners r)) uid (scene s)) s)
  | Validate uid => _ <- validateRenderable uid ;; ret tt
  | Add uid => addRenderable uid
  | Update uid => updateRenderable uid
  | DestroyRenderable uid => destroyRenderable uid
  | EmitDestroyed uid =>
      fun s => match scene s !! uid with
               | Some r => fire_destroyed (destroyedListeners r) uid s
               | None => Ok tt s
               end
  | Destroy => destroy
  | Resolve req tex =>
      fun s => match take_pending req (pending s) with
               | Some (p, rest) =>
                   catch_console
                     (emit (ManagedTextureReady req (s_key p) tex) ;;
                      _updateGpuText_resume p tex)
                     (set_pending rest s)
               | None => Ok tt s
               end
  | Reject req e =>
      fun s => match take_pending req (pending s) with
               | Some (p, rest) =>
                   Ok tt (set_log (ConsoleError e :: log (set_pending rest s))
                            (set_pending rest s))
               | None => Ok tt s
               end
  end.

(** A run of the host: a call that throws leaves the state as it was at the
    throw, and the host goes on. *)
Definition run (acts : list Action) (s : State) : State :=
  fold_left (fun s a => state_of (exec a s)) acts s.

End Pipe.

(** ** Reading the state *)

Definition count {A : Type} (f : A -> bool) (l : list A) : nat :=
  length (List.filter f l).

(** The provider has handed over a texture for key [k]: the successful
    [getManagedTexture] call that stands for one increment of [k]'s count. *)
Definition is_increment (k : string) (e : Event) : bool :=
  match e with
  | ManagedTextureReady _ k' _ => bool_decide (k' = k)
  | _ => false
  end.

Definition is_decrement (k : string) (e : Event) : bool :=
  match e with
  | DecreaseReferenceCount k' => bool_decide (k' = k)
  | _ => false
  end.

Definition is_request (e : Event) : bool :=
  match e with
  | GetManagedTexture _ _ _ _ _ => true
  | _ => false
  end.

Definition is_request_for (k : string) (e : Event) : bool :=
  match e with
  | GetManagedTexture _ _ _ k' _ => bool_decide (k' = k)
  | _ => false
  end.

Definition is_release (e : Event) : bool :=
  match e with
  | PoolReturn _ => true
  | _ => false
  end.

Definition is_error (e : Event) : bool :=
  match e with
  | ConsoleError _ => true
  | _ => false
  end.

Definition incs (k : string) (l : list Event) : nat := count (is_increment k) l.
Definition decs (k : string) (l : list Event) : nat := count (is_decrement k) l.
Definition requests (l : list Event) : nat := count is_request l.
Definition reqs (k : string) (l : list Event) : nat := count (is_request_for k) l.

(** The record that [uid] maps to, if it maps to one. *)
Definition live (s : State) (uid a : nat) : Prop :=
  exists m, _gpuText s = Some m /\ m !! uid = Some (Some a).

Definition recordOf (s : State) (uid : nat) : option GpuText :=
  m ← _gpuText s; oa ← m !! uid; a ← oa; heap s !! a.

(** The batch entry of [uid]'s record. *)
Definition entryOf (s : State) (uid : nat) : option BatchableSprite.t :=
  g ← recordOf s uid; sprites s !! batchableSprite g.

Definition flagOf (s : State) (uid : nat) : option bool :=
  r ← scene s !! uid; Some (_didUpdate (view r)).

(** A test of the record behind a value of the map. *)
Definition on_record (P : GpuText -> bool) (h : list GpuText) (oa : option nat) : bool :=
  match oa with
  | Some a => match h !! a with
              | Some g => P g
              | None => false
              end
  | None => false
  end.

(** A map value that is a record holding key [k]. *)
Definition holds (k : string) : list GpuText -> option nat -> bool :=
  on_record (fun g => bool_decide (currentKey g = k)).

(** ... and that is not waiting for a texture. *)
Definition settled (k : string) : list GpuText -> option nat -> bool :=
  on_record (fun g => negb (generatingTexture g) && bool_decide (currentKey g = k)).

Definition tally (f : option nat -> bool) (m : gmap nat (option nat)) : nat :=
  count f ((map_to_list m).*2).

(** How many records of the map hold key [k]. *)
Definition holding (k : string) (s : State) : nat :=
  match _gpuText s with
  | Some m => tally (holds k (heap s)) m
  | None => 0
  end.

(** How many records of the map hold key [k] and display its texture. *)
Definition holders (k : string) (s : State) : nat :=
  match _gpuText s with
  | Some m => tally (settled k (heap s)) m
  | None => 0
  end.

Definition generating_at (s : State) (uid : nat) : bool :=
  match recordOf s uid with
  | Some g => generatingTexture g
  | None => false
  end.

(** The extent of a bounds array over the pairs (0,1) and (2,3). *)
Definition quadArea (b : Bounds) : Z :=
  match b with
  | [x0; x1; y0; y1] => (Z.abs (x1 - x0) * Z.abs (y1 - y0))%Z
  | _ => 0%Z
  end.

Section Runs.

Variable updateQuadBounds : Bounds -> Z * Z -> Texture -> Z -> Bounds.

(** No record is destroyed while its [generatingTexture] flag is set. *)
Definition calm (a : Action) (s : State) : bool :=
  match a with
  | DestroyRenderable uid | EmitDestroyed uid => negb (generating_at s uid)
  | Destroy =>
      match _gpuText s with
      | Some m => forallb (fun uid => negb (generating_at s uid)) (ownKeys m)
      | None => true
      end
  | _ => true
  end.

Fixpoint calm_run (acts : list Action) (s : State) : bool :=
  match acts with
  | [] => true
  | a :: rest => calm a s && calm_run rest (state_of (exec updateQuadBounds a s))
  end.

End Runs.

(** At most one suspended call per record, and its record is flagged. *)
Definition single_flight (s : State) : Prop :=
  NoDup (s_gpuText <$> pending s) /\
  forall p, p ∈ pending s ->
    exists g, heap s !! s_gpuText p = Some g /\ generatingTexture g = true.

(** ** Sample data *)

Definition sampleQuadBounds (b : Bounds) (a : Z * Z) (t : Texture) (p : Z) : Bounds :=
  let side := match t with EMPTY => 1%Z | Managed n => Z.of_nat n end in
  [(- fst a * side - p)%Z; (- fst a * side - p + side)%Z;
   (- snd a * side - p)%Z; (- snd a * side - p + side)%Z].

Definition sampleView (k : string) : TextView :=
  mkView "hi" None (0, 0)%Z (mkStyle 2%Z) true k.

Definition sampleRenderer : Renderer := mkRenderer 1%Z.

Definition sampleRun (acts : list Action) : State :=
  run sampleQuadBounds acts (init sampleRenderer).

Definition reached (updateQuadBounds : Bounds -> Z * Z -> Texture -> Z -> Bounds)
    (acts : list Action) (R : Renderer) : State :=
  run updateQuadBounds acts (init R).

(** A request fails, and the text changes afterwards. *)
Definition afterFailure : State :=
  sampleRun [Spawn 1 (sampleView "A"); Add 1; Reject 0 (Rejected "boom")].

Definition afterRetry : State :=
  run sampleQuadBounds [Change 1 (sampleView "B"); Update 1; Validate 1; Update 1]
    afterFailure.

(** Renderable 1 is destroyed while its request is outstanding, renderable 2
    is added, and then the request of renderable 1 completes. *)
Definition destroyedInFlight : State :=
  sampleRun [Spawn 1 (sampleView "A"); Spawn 2 (sampleView "B"); Add 1;
             DestroyRenderable 1; Add 2].

Definition lateCompletion : State :=
  run sampleQuadBounds [Resolve 0 (Managed 7)] destroyedInFlight.

Definition settledOne : State :=
  sampleRun [Spawn 1 (sampleView "A"); Add 1; Resolve 0 (Managed 7)].

Definition destroyedOnce : State :=
  state_of (destroyRenderable 1 settledOne).

Definition oneOfTwoDestroyed : State :=
  sampleRun [Spawn 1 (sampleView "A"); Spawn 2 (sampleView "B"); Add 1; Add 2;
             Resolve 0 (Managed 7); Resolve 1 (Managed 8); DestroyRenderable 1].

Definition lifeCycle : list Action :=
  [Spawn 1 (sampleView "A"); Add 1; Resolve 0 (Managed 7);
   Change 1 (sampleView "B"); Update 1; Resolve 1 (Managed 8); EmitDestroyed 1].

Definition inFlight : State :=
  reached sampleQuadBounds [Spawn 1 (sampleView "A"); Add 1] sampleRenderer.

Definition spawned : State :=
  reached sampleQuadBounds [Spawn 1 (sampleView "A")] sampleRenderer.

(** ** The states the steps leave *)

Definition freshEntry (uid : nat) : BatchableSprite.t :=
  BatchableSprite.mk (Some uid) EMPTY [0; 1; 0; 0]%Z.

Definition clear_didUpdate (uid : nat) (s : State) : State :=
  set_scene (alter (fun r => mkRenderable (set_didUpdate false (view r))
                                (destroyedListeners r)) uid (scene s)) s.

(** [_updateGpuText] on a record that is not flagged, up to its [await]. *)
Definition begin_regeneration (uid a : nat) (g : GpuText) (v : TextView) (R : Renderer)
    (s : State) : State :=
  set_pending (pending s ++ [mkSuspended (nextRequest s) uid a (_getKey v)])
    (set_log (GetManagedTexture (text v) (default (rendererResolution R) (resolution v))
                (_style v) (_getKey v) (nextRequest s)
              :: DecreaseReferenceCount (currentKey g) :: log s)
       (set_nextRequest (S (nextRequest s))
          (set_heap (<[a := set_currentKey (_getKey v) (set_generatingTexture true g)]>
                       (heap s))
             (clear_didUpdate uid s)))).

(** [_initGpuText] on a renderable of the scene. *)
Definition first_touch (uid : nat) (s : State) : State :=
  let b := match pool s with b :: _ => b | [] => length (sprites s) end in
  let spr := match pool s with
             | _ :: _ => sprites s
             | [] => sprites s ++ [BatchableSprite.mk None EMPTY []]
             end in
  mkState (option_map (insert uid (Some (length (heap s)))) (_gpuText s))
    (_renderer s)
    (heap s ++ [mkGpuText false false EMPTY sentinel b])
    (<[b := freshEntry uid]> spr)
    (tail (pool s))
    (alter (fun r => mkRenderable (view r) (S (destroyedListeners r))) uid (scene s))
    (pending s) (nextRequest s)
    (OnDestroyed uid :: PoolGet b :: StyleUpdate uid :: log s).

Section Steps.

Variable updateQuadBounds : Bounds -> Z * Z -> Texture -> Z -> Bounds.

Definition recompute_bounds (b : nat) (v : TextView) (sp : BatchableSprite.t)
    (s : State) : State :=
  set_sprites
    (<[b := set_sprite_bounds
              (updateQuadBounds (BatchableSprite.bounds sp) (anchor v)
                 (BatchableSprite.texture sp) (padding (_style v))) sp]> (sprites s)) s.

(** The first half of [_updateText]: nothing when the key is the record's,
    and otherwise [_updateGpuText], which gives up on a flagged record. *)
Definition regenerate (uid a : nat) (g : GpuText) (r : Renderable) (R : Renderer)
    (s : State) : State :=
  if bool_decide (currentKey g = _getKey (view r)) then s
  else if generatingTexture g then clear_didUpdate uid s
  else begin_regeneration uid a g (set_didUpdate false (view r)) R s.

(** [addRenderable] and [updateRenderable] on a record of the map; [ev] is
    the call to the batch service that ends them. *)
Definition after_step (ev : Event) (uid a : nat) (g : GpuText) (r : Renderable)
    (R : Renderer) (sp : BatchableSprite.t) (s : State) : State :=
  let s' := if _didUpdate (view r)
            then recompute_bounds (batchableSprite g) (view r) sp
                   (clear_didUpdate uid (regenerate uid a g r R s))
            else s in
  set_log (ev :: log s') s'.

End Steps.

(** ** Invariants of a run *)

Definition bnat (b : bool) : nat := if b then 1 else 0.

(** The fields of a record that the invariants read. *)
Definition skel (g : GpuText) : bool * string * nat :=
  (generatingTexture g, currentKey g, batchableSprite g).

(** Holds in every state of every run: references are in range, no two uids
    share a record, and every suspended call waits on a flagged record that
    holds the key the call asked for, one call per record. *)
Record basic (s : State) : Prop := mkBasic {
  b_pipe : is_Some (_gpuText s) -> is_Some (_renderer s);
  b_live_valid : forall uid a, live s uid a -> a < length (heap s);
  b_live_inj : forall u1 u2 a, live s u1 a -> live s u2 a -> u1 = u2;
  b_sprite_valid : forall a g, heap s !! a = Some g ->
    batchableSprite g < length (sprites s);
  b_pool_valid : forall b, b ∈ pool s -> b < length (sprites s);
  b_pending_rec : forall p, p ∈ pending s ->
    exists g, heap s !! s_gpuText p = Some g /\ generatingTexture g = true /\
              currentKey g = s_key p;
  b_pending_nodup : NoDup (s_gpuText <$> pending s)
}.

(** Holds as long as no flagged record is destroyed: suspended calls wait on
    records of the map, and the counts of every key balance. *)
Record ledger (s : State) : Prop := mkLedger {
  l_pending_live : forall p, p ∈ pending s -> exists uid, live s uid (s_gpuText p);
  l_balance : forall k, k <> sentinel ->
    incs k (log s) = decs k (log s) + holders k s
}.

(** Holds in every state of every run: the requests sent for a key are the
    decrements of the key and the records of the map that hold it. *)
Record asked (s : State) : Prop := mkAsked {
  a_balance : forall k, k <> sentinel ->
    reqs k (log s) = decs k (log s) + holding k s
}.

Definition Inv (c : bool) (s : State) : Prop :=
  basic s /\ asked s /\ (c = true -> ledger s).

(** Two states that the invariants cannot tell apart. *)
Record shape (s s' : State) : Prop := mkShape {
  sh_map : _gpuText s' = _gpuText s;
  sh_renderer : _renderer s' = _renderer s;
  sh_heap : skel <$> heap s' = skel <$> heap s;
  sh_sprites : length (sprites s') = length (sprites s);
  sh_pool : pool s' = pool s;
  sh_pending : pending s' = pending s;
  sh_reqs : forall k, reqs k (log s') = reqs k (log s);
  sh_incs : forall k, incs k (log s') = incs k (log s);
  sh_decs : forall k, decs k (log s') = decs k (log s)
}.

Definition neutral {A : Type} (m : M A) : Prop := forall s, shape s (state_of (m s)).

Definition quiet (ev : Event) : Prop :=
  forall k, is_request_for k ev = false /\ is_increment k ev = false /\
            is_decrement k ev = false.

Definition pres (c : bool) {A : Type} (m : M A) : Prop :=
  forall s, Inv c s -> Inv c (state_of (m s)).

Definition presQ (c : bool) {A : Type} (m : M A) (Q : A -> State -> Prop) : Prop :=
  forall s, Inv c s ->
    match m s with
    | Ok a s' => Inv c s' /\ Q a s'
    | Throw _ s' => Inv c s'
    end.

(** ** Ownership of batch entries and displayed textures *)

(** No entry of the pool is free twice, no free entry belongs to a record of
    the map, and no two records of the map share an entry. *)
Definition exclusive (s : State) : Prop :=
  NoDup (pool s) /\
  forall u1 a1 g1, live s u1 a1 -> heap s !! a1 = Some g1 ->
    (batchableSprite g1 ∉ pool s) /\
    forall u2 a2 g2, live s u2 a2 -> heap s !! a2 = Some g2 ->
      batchableSprite g1 = batchableSprite g2 -> u1 = u2.

(** Every record of the map has the texture its batch entry shows. *)
Definition textured (s : State) : Prop :=
  forall uid a g sp, live s uid a -> heap s !! a = Some g ->
    sprites s !! batchableSprite g = Some sp ->
    texture g = BatchableSprite.texture sp.

Definition owned (c : bool) (s : State) : Prop :=
  exclusive s /\ (c = true -> textured s).

(** The fields of a record that ownership reads. *)
Definition face (g : GpuText) : nat * Texture := (batchableSprite g, texture g).

(** Two states that ownership cannot tell apart. *)
Record frame (s s' : State) : Prop := mkFrame {
  fr_map : _gpuText s' = _gpuText s;
  fr_pool : pool s' = pool s;
  fr_heap : face <$> heap s' = face <$> heap s;
  fr_sprites : BatchableSprite.texture <$> sprites s' = BatchableSprite.texture <$> sprites s
}.

Definition still {A : Type} (m : M A) : Prop := forall s, frame s (state_of (m s)).

Definition keeps (c : bool) {A : Type} (m : M A) : Prop :=
  forall s, Inv c s -> owned c s -> owned c (state_of (m s)).

Create HintDb own.

(** ** What the calls leave, read at the renderable *)

(** The type of [updateQuadBounds]. *)
Definition QuadBounds : Type := Bounds -> Z * Z -> Texture -> Z -> Bounds.

(** [_destroyRenderableById] on a record of the map. *)
Definition released (uid : nat) (g : GpuText) (s : State) : State :=
  set_gpuText (option_map (insert uid None) (_gpuText s))
    (set_log (PoolReturn (batchableSprite g)
                :: DecreaseReferenceCount (currentKey g) :: log s)
       (set_pool (batchableSprite g :: pool s) s)).

(** The key [_updateText] compares the view's key with: the record's, and
    the sentinel of the record that [_getGpuText] creates when there is none. *)
Definition keyBefore (s : State) (uid : nat) : string :=
  default sentinel (currentKey <$> recordOf s uid).

(** Add and update start a regeneration: the view reports a mutation, its
    key is not the record's, and the record is not waiting for a texture. *)
Definition sends (s : State) (uid : nat) (r : Renderable) : bool :=
  _didUpdate (view r)
  && negb (bool_decide (keyBefore s uid = _getKey (view r)))
  && negb (generating_at s uid).

(** Two renderables on screen, one of them with its texture. *)
Definition twoShown : list Action :=
  [Spawn 1 (sampleView "A"); Spawn 2 (sampleView "B"); Add 1; Add 2;
   Resolve 0 (Managed 7)].

(** A renderable destroyed by a direct call and shown again. *)
Definition shownAgain : list Action :=
  [Spawn 1 (sampleView "A"); Add 1; Resolve 0 (Managed 7); DestroyRenderable 1; Add 1].

(** A pipe with two settled records, torn down. *)
Definition tornDown : State :=
  sampleRun [Spawn 1 (sampleView "A"); Spawn 2 (sampleView "B"); Add 1; Add 2;
             Resolve 0 (Managed 7); Resolve 1 (Managed 8); Destroy].

(** ** Records left waiting *)

(** The record at [a] shows texture [t] for key [k], its flag is set, and no
    suspended call waits on it. *)
Definition abandoned (a : nat) (t : Texture) (k : string) (s : State) : Prop :=
  (exists g, heap s !! a = Some g /\ generatingTexture g = true /\
             texture g = t /\ currentKey g = k) /\
  a ∉ (s_gpuText <$> pending s).

Definition stays (a : nat) {A : Type} (m : M A) : Prop :=
  forall t k s, abandoned a t k s -> abandoned a t k (state_of (m s)).

Create HintDb stuck.

Ltac sim :=
  cbn [_gpuText _renderer heap sprites pool scene pending nextRequest log
       set_gpuText set_renderer set_heap set_sprites set_pool set_scene
       set_pending set_nextRequest set_log state_of] in *.

Ltac setter_headed t :=
  match t with
  | set_gpuText _ _ => idtac
  | set_renderer _ _ => idtac
  | set_heap _ _ => idtac
  | set_sprites _ _ => idtac
  | set_pool _ _ => idtac
  | set_scene _ _ => idtac
  | set_pending _ _ => idtac
  | set_nextRequest _ _ => idtac
  | set_log _ _ => idtac
  end.

(** Brings the states of the goal that are written with setters to the form
    of a record of fields. *)
Ltac norm :=
  repeat match goal with
         | |- context [?t] =>
             setter_headed t;
             change t with (mkState (_gpuText t) (_renderer t) (heap t) (sprites t)
                              (pool t) (scene t) (pending t) (nextRequest t) (log t));
             sim
         end.

Create HintDb pipe.

(** * Proofs *)

(** ** Counting *)

Lemma count_cons {A} (f : A -> bool) x l : count f (x :: l) = bnat (f x) + count f l.
Proof. unfold count. simpl. destruct (f x); reflexivity. Qed.

Lemma count_perm {A} (f : A -> bool) l1 l2 : l1 ≡ₚ l2 -> count f l1 = count f l2.
Proof.
  induction 1; rewrite ?count_cons; try lia.
Qed.

Lemma count_ext_in {A} (f g : A -> bool) l :
  (forall x, x ∈ l -> f x = g x) -> count f l = count g l.
Proof.
  induction l as [|x l IH]; intros H; [reflexivity|].
  rewrite !count_cons, (H x), IH; [reflexivity| |left].
  intros y Hy. apply H. by right.
Qed.

Lemma tally_insert_fresh f (m : gmap nat (option nat)) i v :
  m !! i = None -> tally f (<[i:=v]> m) = bnat (f v) + tally f m.
Proof.
  intros H. unfold tally.
  rewrite (count_perm f _ _ (fmap_Permutation snd _ _ (map_to_list_insert m i v H))).
  rewrite fmap_cons, count_cons. reflexivity.
Qed.

Lemma tally_delete f (m : gmap nat (option nat)) i v :
  m !! i = Some v -> tally f m = bnat (f v) + tally f (delete i m).
Proof.
  intros H. rewrite <- (insert_id m i v H) at 1.
  rewrite <- insert_delete_eq. apply tally_insert_fresh. apply lookup_delete_eq.
Qed.

Lemma tally_insert f (m : gmap nat (option nat)) i v :
  tally f (<[i:=v]> m) + from_option (fun w => bnat (f w)) 0 (m !! i)
  = bnat (f v) + tally f m.
Proof.
  destruct (m !! i) as [w|] eqn:E; simpl.
  - rewrite (tally_delete f m i w E). rewrite <- insert_delete_eq.
    rewrite tally_insert_fresh by apply lookup_delete_eq. lia.
  - rewrite tally_insert_fresh by done. lia.
Qed.

Lemma tally_ext f g (m : gmap nat (option nat)) :
  (forall i v, m !! i = Some v -> f v = g v) -> tally f m = tally g m.
Proof.
  intros H. unfold tally. apply count_ext_in. intros v Hv.
  apply list_elem_of_fmap in Hv as [[i w] [-> Hw]].
  apply elem_of_map_to_list in Hw. eapply H; eauto.
Qed.

Lemma tally_zero f (m : gmap nat (option nat)) :
  (forall i v, m !! i = Some v -> f v = false) -> tally f m = 0.
Proof.
  intros H. rewrite (tally_ext f (fun _ => false)) by done.
  unfold tally, count. induction ((map_to_list m).*2); auto.
Qed.

(** ** States the invariants cannot tell apart *)

Lemma shape_refl s : shape s s.
Proof. by constructor. Qed.

Lemma shape_trans s1 s2 s3 : shape s1 s2 -> shape s2 s3 -> shape s1 s3.
Proof.
  intros [] []. constructor; try congruence.
  all: intros k; etrans; eauto.
Qed.

Lemma skel_lookup (h h' : list GpuText) a g' :
  skel <$> h' = skel <$> h -> h' !! a = Some g' ->
  exists g, h !! a = Some g /\ skel g = skel g'.
Proof.
  intros E H.
  assert (H1 : (skel <$> h') !! a = Some (skel g')) by (by rewrite list_lookup_fmap, H).
  rewrite E, list_lookup_fmap in H1.
  destruct (h !! a) as [g|]; simpl in H1; [|done]. exists g. split; [done|congruence].
Qed.

Lemma skel_length (h h' : list GpuText) : skel <$> h' = skel <$> h -> length h' = length h.
Proof. intros E. rewrite <- (length_fmap skel h'), E. apply length_fmap. Qed.

Lemma skel_fields g g' : skel g = skel g' ->
  generatingTexture g = generatingTexture g' /\ currentKey g = currentKey g' /\
  batchableSprite g = batchableSprite g'.
Proof. unfold skel. intros [= -> -> ->]. done. Qed.

Lemma on_record_skel P (h h' : list GpuText) oa :
  (forall g g', skel g = skel g' -> P g = P g') ->
  skel <$> h' = skel <$> h -> on_record P h' oa = on_record P h oa.
Proof.
  intros HP E. destruct oa as [a|]; [|done]. simpl.
  destruct (h' !! a) as [g'|] eqn:H'.
  - destruct (skel_lookup _ _ _ _ E H') as (g & -> & Hs). symmetry. by apply HP.
  - destruct (h !! a) as [g|] eqn:H; [|done].
    destruct (skel_lookup _ _ _ _ (eq_sym E) H) as (g' & Hg' & _). congruence.
Qed.

Lemma settled_skel k (h h' : list GpuText) oa :
  skel <$> h' = skel <$> h -> settled k h' oa = settled k h oa.
Proof.
  apply on_record_skel. intros g g' Hs. by apply skel_fields in Hs as (-> & -> & _).
Qed.

Lemma holds_skel k (h h' : list GpuText) oa :
  skel <$> h' = skel <$> h -> holds k h' oa = holds k h oa.
Proof.
  apply on_record_skel. intros g g' Hs. by apply skel_fields in Hs as (_ & -> & _).
Qed.

Lemma live_shape s s' uid a : shape s s' -> live s' uid a <-> live s uid a.
Proof. intros []. unfold live. by rewrite sh_map0. Qed.

Lemma holders_shape s s' k : shape s s' -> holders k s' = holders k s.
Proof.
  intros []. unfold holders. rewrite sh_map0.
  destruct (_gpuText s); [|done]. apply tally_ext. intros. by apply settled_skel.
Qed.

Lemma holding_shape s s' k : shape s s' -> holding k s' = holding k s.
Proof.
  intros []. unfold holding. rewrite sh_map0.
  destruct (_gpuText s); [|done]. apply tally_ext. intros. by apply holds_skel.
Qed.

Lemma asked_shape s s' : shape s s' -> asked s -> asked s'.
Proof.
  intros Hs []. constructor. intros k Hk.
  rewrite (sh_reqs _ _ Hs), (sh_decs _ _ Hs), (holding_shape _ _ _ Hs). auto.
Qed.

Lemma basic_shape s s' : shape s s' -> basic s -> basic s'.
Proof.
  intros Hs [] . pose proof Hs as [].
  constructor.
  - by rewrite sh_map0, sh_renderer0.
  - intros uid a Hl. rewrite (skel_length _ _ sh_heap0).
    apply (b_live_valid0 uid). by apply (live_shape s s').
  - intros u1 u2 a H1 H2. apply (b_live_inj0 u1 u2 a); by apply (live_shape s s').
  - intros a g' Hg'. destruct (skel_lookup _ _ _ _ sh_heap0 Hg') as (g & Hg & Hk).
    apply skel_fields in Hk as (_ & _ & <-). rewrite sh_sprites0. eauto.
  - intros b Hb. rewrite sh_sprites0. apply b_pool_valid0. by rewrite <- sh_pool0.
  - intros p Hp. rewrite sh_pending0 in Hp.
    destruct (b_pending_rec0 p Hp) as (g & Hg & Hgen & Hkey).
    destruct (skel_lookup _ _ _ _ (eq_sym sh_heap0) Hg) as (g' & Hg' & Hk).
    apply skel_fields in Hk as (? & ? & _). exists g'. split; [done|]. split; congruence.
  - by rewrite sh_pending0.
Qed.

Lemma ledger_shape s s' : shape s s' -> ledger s -> ledger s'.
Proof.
  intros Hs []. constructor.
  - intros p Hp. rewrite (sh_pending _ _ Hs) in Hp.
    destruct (l_pending_live0 p Hp) as [uid H]. exists uid. by apply (live_shape s s').
  - intros k Hk. rewrite (sh_incs _ _ Hs), (sh_decs _ _ Hs), (holders_shape _ _ _ Hs). auto.
Qed.

Lemma Inv_shape c s s' : shape s s' -> Inv c s -> Inv c s'.
Proof.
  intros Hs (Hb & Ha & Hl). split; [by eapply basic_shape|].
  split; [by eapply asked_shape|]. intros Hc. eapply ledger_shape; eauto.
Qed.

(** ** Steps that keep the shape of the state *)

Lemma live_eq s m uid a : _gpuText s = Some m -> live s uid a <-> m !! uid = Some (Some a).
Proof.
  intros H. unfold live. split.
  - intros (m' & Hm & Hu). congruence.
  - intros Hu. eauto.
Qed.

Lemma shape_log ev s : quiet ev -> shape s (set_log (ev :: log s) s).
Proof.
  intros Hq. constructor; sim; try done.
  all: intros k; destruct (Hq k) as (H1 & H2 & H3).
  all: unfold reqs, incs, decs; rewrite count_cons.
  all: by rewrite ?H1, ?H2, ?H3.
Qed.

Lemma shape_scene c s : shape s (set_scene c s).
Proof. by constructor. Qed.

Lemma shape_sprites b sp s : shape s (set_sprites (<[b:=sp]> (sprites s)) s).
Proof. constructor; sim; try done. apply length_insert. Qed.

Lemma shape_heap a g g' s :
  heap s !! a = Some g -> skel g' = skel g -> shape s (set_heap (<[a:=g']> (heap s)) s).
Proof.
  intros Ha Hk. constructor; sim; try done.
  rewrite list_fmap_insert, Hk. apply list_insert_id. by rewrite list_lookup_fmap, Ha.
Qed.

Lemma neutral_ret {A} (a : A) : neutral (ret a).
Proof. intros s. apply shape_refl. Qed.

Lemma neutral_throw {A} e : neutral (@throw A e).
Proof. intros s. apply shape_refl. Qed.

Lemma neutral_bind {A B} (m : M A) (k : A -> M B) :
  neutral m -> (forall a, neutral (k a)) -> neutral (bind m k).
Proof.
  intros Hm Hk s. unfold bind. specialize (Hm s).
  destruct (m s) as [a s'|e s']; sim; [|done].
  eapply shape_trans; [exact Hm|apply Hk].
Qed.

Lemma neutral_viewOf uid : neutral (viewOf uid).
Proof. intros s. unfold viewOf. destruct (scene s !! uid); apply shape_refl. Qed.

Lemma neutral_this_gpuText : neutral this_gpuText.
Proof. intros s. unfold this_gpuText. destruct (_gpuText s); apply shape_refl. Qed.

Lemma neutral_this_renderer : neutral this_renderer.
Proof. intros s. unfold this_renderer. destruct (_renderer s); apply shape_refl. Qed.

Lemma neutral_read_gpuText a : neutral (read_gpuText a).
Proof. intros s. unfold read_gpuText. destruct (heap s !! a); apply shape_refl. Qed.

Lemma neutral_read_sprite b : neutral (read_sprite b).
Proof. intros s. unfold read_sprite. destruct (sprites s !! b); apply shape_refl. Qed.

Lemma neutral_emit ev : quiet ev -> neutral (emit ev).
Proof. intros Hq s. by apply shape_log. Qed.

Lemma neutral_assign_view uid f : neutral (assign_view uid f).
Proof.
  apply neutral_bind; [apply neutral_viewOf|]. intros _ s. apply shape_scene.
Qed.

Lemma neutral_write_sprite b sp : neutral (write_sprite b sp).
Proof. intros s. apply shape_sprites. Qed.

Lemma neutral_assign_sprite b f : neutral (assign_sprite b f).
Proof.
  apply neutral_bind; [apply neutral_read_sprite|]. intros; apply neutral_write_sprite.
Qed.

Lemma neutral_assign_gpuText a f :
  (forall g, skel (f g) = skel g) -> neutral (assign_gpuText a f).
Proof.
  intros Hf s. unfold assign_gpuText, bind, read_gpuText.
  destruct (heap s !! a) as [g|] eqn:E; [|apply shape_refl].
  eapply shape_heap; eauto.
Qed.

Lemma neutral_on_destroyed uid : neutral (on_destroyed uid).
Proof.
  apply neutral_bind; [apply neutral_viewOf|]. intros _.
  apply neutral_bind; [intros s; apply shape_scene|]. intros _.
  by apply neutral_emit.
Qed.

Lemma neutral_onUpdate uid : neutral (onUpdate uid).
Proof.
  apply neutral_bind; [apply neutral_assign_view|]. intros _. by apply neutral_emit.
Qed.

(** ** Steps that keep the invariants *)

Lemma pres_neutral c {A} (m : M A) : neutral m -> pres c m.
Proof. intros Hm s Hs. eapply Inv_shape; eauto. Qed.

Lemma pres_bind c {A B} (m : M A) (k : A -> M B) :
  pres c m -> (forall a, pres c (k a)) -> pres c (bind m k).
Proof.
  intros Hm Hk s Hs. unfold bind. specialize (Hm s Hs).
  destruct (m s) as [a s'|e s']; sim; [|done]. by apply Hk.
Qed.

Lemma pres_bindQ c {A B} (m : M A) (k : A -> M B) Q :
  presQ c m Q -> (forall a s, Inv c s -> Q a s -> Inv c (state_of (k a s))) ->
  pres c (bind m k).
Proof.
  intros Hm Hk s Hs. unfold bind. specialize (Hm s Hs).
  destruct (m s) as [a s'|e s']; sim; [|done]. destruct Hm. by apply Hk.
Qed.

Lemma pres_catch c m : pres c m -> pres c (catch_console m).
Proof.
  intros Hm s Hs. unfold catch_console. specialize (Hm s Hs).
  destruct (m s) as [a s'|e s']; sim; [done|].
  eapply Inv_shape; [|exact Hm]. by apply shape_log.
Qed.

(** ** First touch *)

Lemma on_record_app P h g oa :
  (forall a, oa = Some a -> a < length h) ->
  on_record P (h ++ [g]) oa = on_record P h oa.
Proof.
  intros H. destruct oa as [a|]; [|done]. simpl.
  rewrite lookup_app_l by auto. done.
Qed.

(** A new record with the sentinel key adds nothing to the tally of a key. *)
Lemma tally_first_touch P (m : gmap nat (option nat)) uid h g :
  (forall i a, m !! i = Some (Some a) -> a < length h) ->
  (forall a, m !! uid <> Some (Some a)) -> P g = false ->
  tally (on_record P (h ++ [g])) (<[uid := Some (length h)]> m)
  = tally (on_record P h) m.
Proof.
  intros Hv Hu Hg.
  pose proof (tally_insert (on_record P (h ++ [g])) m uid (Some (length h))) as T.
  assert (E1 : from_option (fun w => bnat (on_record P (h ++ [g]) w)) 0 (m !! uid) = 0).
  { destruct (m !! uid) as [[a|]|] eqn:E; simpl; try done. by destruct (Hu a). }
  assert (E2 : on_record P (h ++ [g]) (Some (length h)) = false).
  { simpl. rewrite lookup_app_r by lia. by rewrite Nat.sub_diag. }
  rewrite E1, E2 in T. simpl in T. rewrite Nat.add_0_r in T. rewrite T.
  apply tally_ext. intros i v Hi. apply on_record_app. intros a ->. eauto.
Qed.

(** The state [_initGpuText] leaves when it succeeds. *)
Lemma initGpuText_basic uid m spr' pl' b sc' lg' s :
  basic s -> _gpuText s = Some m -> (forall a, m !! uid <> Some (Some a)) ->
  length (sprites s) <= length spr' -> b < length spr' ->
  (forall x, x ∈ pl' -> x < length spr') ->
  basic (mkState (Some (<[uid := Some (length (heap s))]> m)) (_renderer s)
           (heap s ++ [mkGpuText false false EMPTY sentinel b])
           spr' pl' sc' (pending s) (nextRequest s) lg').
Proof.
  intros [] Hm Hu Hlen Hb Hpl. constructor; sim.
  - intros _. apply b_pipe0. rewrite Hm. eauto.
  - intros u a Hl. rewrite length_app. simpl.
    apply live_eq with (m := <[uid := Some (length (heap s))]> m) in Hl; [|done].
    destruct (decide (u = uid)) as [->|Hne].
    + rewrite lookup_insert_eq in Hl. injection Hl as <-. lia.
    + rewrite lookup_insert_ne in Hl by done.
      assert (a < length (heap s)); [|lia]. apply (b_live_valid0 u). by apply (live_eq s m).
  - intros u1 u2 a H1 H2.
    apply live_eq with (m := <[uid := Some (length (heap s))]> m) in H1; [|done].
    apply live_eq with (m := <[uid := Some (length (heap s))]> m) in H2; [|done].
    destruct (decide (u1 = uid)) as [->|Hn1], (decide (u2 = uid)) as [->|Hn2]; [done|..].
    + rewrite lookup_insert_eq in H1. injection H1 as <-.
      rewrite lookup_insert_ne in H2 by done.
      assert (length (heap s) < length (heap s)); [|lia].
      apply (b_live_valid0 u2). by apply (live_eq s m).
    + rewrite lookup_insert_eq in H2. injection H2 as <-.
      rewrite lookup_insert_ne in H1 by done.
      assert (length (heap s) < length (heap s)); [|lia].
      apply (b_live_valid0 u1). by apply (live_eq s m).
    + rewrite lookup_insert_ne in H1, H2 by done.
      apply (b_live_inj0 u1 u2 a); by apply (live_eq s m).
  - intros a g Hg. apply lookup_app_Some in Hg as [Hg|[_ Hg]].
    + pose proof (b_sprite_valid0 a g Hg). lia.
    + apply list_lookup_singleton_Some in Hg as [_ <-]. done.
  - done.
  - intros p Hp. destruct (b_pending_rec0 p Hp) as (g & Hg & ?). exists g. split; [|done].
    by apply lookup_app_l_Some.
  - done.
Qed.

Lemma initGpuText_ledger uid m spr' pl' b sc' lg' s :
  basic s -> ledger s -> _gpuText s = Some m -> (forall a, m !! uid <> Some (Some a)) ->
  (forall k, incs k lg' = incs k (log s)) -> (forall k, decs k lg' = decs k (log s)) ->
  ledger (mkState (Some (<[uid := Some (length (heap s))]> m)) (_renderer s)
           (heap s ++ [mkGpuText false false EMPTY sentinel b])
           spr' pl' sc' (pending s) (nextRequest s) lg').
Proof.
  intros Hb [] Hm Hu Hi Hd. constructor; sim.
  - intros p Hp. destruct (l_pending_live0 p Hp) as [u Hl]. exists u.
    apply live_eq with (m := m) in Hl; [|done].
    apply live_eq with (m := <[uid := Some (length (heap s))]> m); [done|].
    rewrite lookup_insert_ne; [done|]. intros ->. by apply Hu in Hl.
  - intros k Hk. rewrite Hi, Hd, (l_balance0 k Hk). f_equal.
    unfold holders. sim. rewrite Hm. symmetry. apply tally_first_touch; [|done|].
    + intros i a Hi'. apply (b_live_valid _ Hb i). by apply (live_eq s m).
    + simpl. rewrite bool_decide_eq_false_2; [done|]. congruence.
Qed.

Lemma initGpuText_asked uid m spr' pl' b sc' lg' s :
  basic s -> asked s -> _gpuText s = Some m -> (forall a, m !! uid <> Some (Some a)) ->
  (forall k, reqs k lg' = reqs k (log s)) -> (forall k, decs k lg' = decs k (log s)) ->
  asked (mkState (Some (<[uid := Some (length (heap s))]> m)) (_renderer s)
           (heap s ++ [mkGpuText false false EMPTY sentinel b])
           spr' pl' sc' (pending s) (nextRequest s) lg').
Proof.
  intros Hb [] Hm Hu Hi Hd. constructor; sim.
  intros k Hk. rewrite Hi, Hd, (a_balance0 k Hk). f_equal.
  unfold holding. sim. rewrite Hm. symmetry. apply tally_first_touch; [|done|].
  - intros i a Hi'. apply (b_live_valid _ Hb i). by apply (live_eq s m).
  - simpl. rewrite bool_decide_eq_false_2; [done|]. congruence.
Qed.

Lemma getGpuText_live uid s m a :
  _gpuText s = Some m -> m !! uid = Some (Some a) -> _getGpuText uid s = Ok a s.
Proof.
  intros Hm Hu. unfold _getGpuText, bind, this_gpuText. by rewrite Hm, Hu.
Qed.

Lemma getGpuText_fresh uid s m r :
  _gpuText s = Some m -> (forall a, m !! uid <> Some (Some a)) -> scene s !! uid = Some r ->
  _getGpuText uid s = Ok (length (heap s)) (first_touch uid s).
Proof.
  intros Hm Hu Hr. unfold _getGpuText, bind, this_gpuText. rewrite Hm.
  assert (E : _initGpuText uid s = Ok (length (heap s)) (first_touch uid s)).
  { unfold _initGpuText, bind, viewOf. rewrite Hr.
    unfold emit, modify, BigPool_get, first_touch. sim.
    destruct (pool s) as [|b pl] eqn:Hp; sim.
    all: unfold new_gpuText, write_sprite, store_gpuText, on_destroyed, bind, this_gpuText,
           viewOf, modify, emit, ret; sim.
    all: rewrite Hm; sim; rewrite Hr; sim.
    all: norm; rewrite ?Hp; reflexivity. }
  destruct (m !! uid) as [[a|]|] eqn:E'; [by destruct (Hu a)|done|done].
Qed.

Lemma getGpuText_pres c uid :
  presQ c (_getGpuText uid) (fun a s' => live s' uid a).
Proof.
  intros s (Hb & Ha & Hl).
  destruct (_gpuText s) as [m|] eqn:Hm.
  2:{ unfold _getGpuText, bind, this_gpuText. rewrite Hm. by split. }
  destruct (m !! uid) as [[a|]|] eqn:Hu.
  { rewrite (getGpuText_live uid s m a Hm Hu). split; [by split|]. by apply (live_eq s m). }
  all: assert (Hn : forall a, m !! uid <> Some (Some a)) by (intros a; congruence).
  all: destruct (scene s !! uid) as [r|] eqn:Hr.
  2,4: unfold _getGpuText, _initGpuText, bind, this_gpuText, viewOf;
       rewrite Hm, Hu, Hr; by split.
  all: rewrite (getGpuText_fresh uid s m r Hm Hn Hr).
  all: unfold first_touch; rewrite Hm; simpl option_map.
  all: pose proof (b_pool_valid _ Hb) as Hv.
  all: assert (Hlen : match pool s with
                      | b :: _ => b
                      | [] => length (sprites s)
                      end
                      < length (<[match pool s with
                                   | b :: _ => b
                                   | [] => length (sprites s)
                                   end := freshEntry uid]>
                                  match pool s with
                                  | _ :: _ => sprites s
                                  | [] => sprites s ++ [BatchableSprite.mk None EMPTY []]
                                  end))
         by (rewrite length_insert; destruct (pool s) as [|b pl];
             [rewrite length_app; simpl; lia|apply Hv; left]).
  all: split; [split; [|split]|].
  all: try (apply (live_eq _ (<[uid := Some (length (heap s))]> m));
            [done|apply lookup_insert_eq]).
  all: try (intros Hc; apply initGpuText_ledger; auto;
            intros k; unfold incs, decs; by rewrite !count_cons).
  all: try (apply initGpuText_asked; auto;
            intros k; unfold reqs, decs; by rewrite !count_cons).
  all: apply initGpuText_basic; auto.
  all: rewrite ?length_insert.
  all: try (destruct (pool s); [rewrite length_app|]; simpl; lia).
  all: intros x Hx; destruct (pool s) as [|b pl]; simpl in Hx; [by inversion Hx|].
  all: apply Hv; by right.
Qed.

(** ** The start of a regeneration *)

Lemma on_record_insert_ne P (h : list GpuText) a g a' :
  a' <> a -> on_record P (<[a:=g]> h) (Some a') = on_record P h (Some a').
Proof. intros Hne. simpl. by rewrite list_lookup_insert_ne. Qed.

(** Writing one record of the map changes the tally at that record only. *)
Lemma tally_update P s m uid a g' :
  basic s -> _gpuText s = Some m -> m !! uid = Some (Some a) ->
  tally (on_record P (<[a:=g']> (heap s))) m + bnat (on_record P (heap s) (Some a))
  = tally (on_record P (heap s)) m + bnat (on_record P (<[a:=g']> (heap s)) (Some a)).
Proof.
  intros Hb Hm Hu.
  rewrite (tally_delete _ m uid _ Hu), (tally_delete (on_record P (heap s)) m uid _ Hu).
  assert (E : tally (on_record P (<[a:=g']> (heap s))) (delete uid m)
              = tally (on_record P (heap s)) (delete uid m)); [|lia].
  apply tally_ext. intros i [a'|] Hi; [|done].
  apply lookup_delete_Some in Hi as [Hne Hi].
  apply on_record_insert_ne. intros ->. apply Hne.
  apply (b_live_inj _ Hb uid i a); by apply (live_eq s m).
Qed.

Lemma pending_not_idle s a g p :
  basic s -> heap s !! a = Some g -> generatingTexture g = false ->
  p ∈ pending s -> s_gpuText p <> a.
Proof.
  intros Hb Ha Hg Hp E. destruct (b_pending_rec _ Hb p Hp) as (g' & Hg' & Hgen & _).
  rewrite E in Hg'. congruence.
Qed.

Lemma begin_basic s uid a g k sc' n' lg' req :
  basic s -> live s uid a -> heap s !! a = Some g -> generatingTexture g = false ->
  basic (mkState (_gpuText s) (_renderer s)
           (<[a := set_currentKey k (set_generatingTexture true g)]> (heap s))
           (sprites s) (pool s) sc'
           (pending s ++ [mkSuspended req uid a k]) n' lg').
Proof.
  intros Hb Hl Ha Hg. pose proof Hb as []. constructor; sim; try done.
  - intros u a' H. rewrite length_insert. eauto.
  - intros a' g' H. destruct (decide (a' = a)) as [->|Hne].
    + rewrite list_lookup_insert_eq in H by (by eapply lookup_lt_Some).
      injection H as <-. simpl. eauto.
    + rewrite list_lookup_insert_ne in H by done. eauto.
  - intros p Hp. apply elem_of_app in Hp as [Hp|Hp].
    + rewrite list_lookup_insert_ne by (symmetry; eapply pending_not_idle; eauto). auto.
    + apply list_elem_of_singleton in Hp as ->. simpl.
      rewrite list_lookup_insert_eq by (by eapply lookup_lt_Some). eauto.
  - rewrite fmap_app. apply NoDup_app. split; [done|]. split; [|apply NoDup_singleton].
    intros x Hx Hx'. simpl in Hx'. apply list_elem_of_singleton in Hx' as ->.
    apply list_elem_of_fmap in Hx as (p & E & Hp).
    symmetry in E. by eapply pending_not_idle in E.
Qed.

Lemma begin_ledger s uid a g k sc' n' lg' req :
  basic s -> ledger s -> live s uid a -> heap s !! a = Some g ->
  generatingTexture g = false ->
  (forall k', incs k' lg' = incs k' (log s)) ->
  (forall k', decs k' lg' = bnat (bool_decide (currentKey g = k')) + decs k' (log s)) ->
  ledger (mkState (_gpuText s) (_renderer s)
           (<[a := set_currentKey k (set_generatingTexture true g)]> (heap s))
           (sprites s) (pool s) sc'
           (pending s ++ [mkSuspended req uid a k]) n' lg').
Proof.
  intros Hb [] Hl Ha Hg Hi Hd. constructor; sim.
  - intros p Hp. apply elem_of_app in Hp as [Hp|Hp]; [by apply l_pending_live0|].
    apply list_elem_of_singleton in Hp as ->. by exists uid.
  - intros k' Hk'. rewrite Hi, Hd, (l_balance0 k' Hk'). unfold holders, settled. sim.
    destruct Hl as (m & Hm & Hu). rewrite Hm.
    pose proof (tally_update
                  (fun g => negb (generatingTexture g) && bool_decide (currentKey g = k'))
                  s m uid a (set_currentKey k (set_generatingTexture true g)) Hb Hm Hu) as T.
    simpl in T. rewrite Ha in T.
    rewrite list_lookup_insert_eq in T by (by eapply lookup_lt_Some).
    simpl in T. rewrite Hg in T. simpl in T. lia.
Qed.

Lemma begin_asked s uid a g k sc' n' lg' req :
  basic s -> asked s -> live s uid a -> heap s !! a = Some g ->
  (forall k', reqs k' lg' = bnat (bool_decide (k = k')) + reqs k' (log s)) ->
  (forall k', decs k' lg' = bnat (bool_decide (currentKey g = k')) + decs k' (log s)) ->
  asked (mkState (_gpuText s) (_renderer s)
           (<[a := set_currentKey k (set_generatingTexture true g)]> (heap s))
           (sprites s) (pool s) sc'
           (pending s ++ [mkSuspended req uid a k]) n' lg').
Proof.
  intros Hb [] Hl Ha Hi Hd. constructor; sim.
  intros k' Hk'. rewrite Hi, Hd, (a_balance0 k' Hk'). unfold holding, holds. sim.
  destruct Hl as (m & Hm & Hu). rewrite Hm.
  pose proof (tally_update (fun g => bool_decide (currentKey g = k'))
                s m uid a (set_currentKey k (set_generatingTexture true g)) Hb Hm Hu) as T.
  simpl in T. rewrite Ha in T.
  rewrite list_lookup_insert_eq in T by (by eapply lookup_lt_Some).
  simpl in T. lia.
Qed.

Lemma updateGpuText_pres c uid : pres c (_updateGpuText uid).
Proof.
  unfold _updateGpuText.
  apply pres_bind; [apply pres_neutral, neutral_assign_view|]. intros _.
  eapply pres_bindQ; [apply getGpuText_pres|]. intros a s (Hb & Hq & Hl) Hlive.
  unfold bind, read_gpuText.
  destruct (heap s !! a) as [g|] eqn:Ha; sim; [|by split].
  destruct (generatingTexture g) eqn:Hg; [by split|].
  unfold viewOf. destruct (scene s !! uid) as [r|] eqn:Hr; sim; [|by split].
  unfold this_renderer. destruct (_renderer s) as [R|] eqn:HR; sim; [|by split].
  unfold emit, modify, assign_gpuText, bind, read_gpuText, write_gpuText, modify; sim.
  rewrite Ha; sim.
  rewrite list_lookup_insert_eq by (by eapply lookup_lt_Some). sim.
  rewrite Hr; sim. unfold fresh_request, suspend, modify; sim.
  rewrite list_insert_insert_eq. norm.
  split; [|split].
  - by eapply begin_basic.
  - eapply begin_asked; eauto.
    all: intros k'; unfold reqs, decs; rewrite !count_cons; done.
  - intros Hc. eapply begin_ledger; eauto.
    all: intros k'; unfold incs, decs; rewrite !count_cons; done.
Qed.

Lemma presQ_pres c {A} (m : M A) Q : presQ c m Q -> pres c m.
Proof. intros H s Hs. specialize (H s Hs). destruct (m s); sim; tauto. Qed.

#[local] Hint Resolve neutral_ret neutral_throw neutral_viewOf neutral_this_gpuText
  neutral_this_renderer neutral_read_gpuText neutral_read_sprite neutral_assign_view
  neutral_write_sprite neutral_assign_sprite neutral_on_destroyed neutral_onUpdate : pipe.
#[local] Hint Extern 1 (neutral (emit _)) => (apply neutral_emit; done) : pipe.
#[local] Hint Extern 1 (neutral (assign_gpuText _ _)) =>
  (apply neutral_assign_gpuText; done) : pipe.
#[local] Hint Resolve pres_neutral pres_bind pres_catch : pipe.
#[local] Hint Extern 2 (pres _ (if ?b then _ else _)) => destruct b : pipe.

Lemma getGpuText_pres' c uid : pres c (_getGpuText uid).
Proof. eapply presQ_pres, getGpuText_pres. Qed.

#[local] Hint Resolve getGpuText_pres' updateGpuText_pres : pipe.

Lemma validateRenderable_pres c uid : pres c (validateRenderable uid).
Proof. unfold validateRenderable. eauto 20 with pipe. Qed.

Section PipeFacts.

Variable uqb : Bounds -> Z * Z -> Texture -> Z -> Bounds.

Lemma updateText_pres c uid : pres c (_updateText uqb uid).
Proof. unfold _updateText. eauto 20 with pipe. Qed.

Lemma addRenderable_pres c uid : pres c (addRenderable uqb uid).
Proof.
  pose proof updateText_pres. unfold addRenderable. eauto 20 with pipe.
Qed.

Lemma updateRenderable_pres c uid : pres c (updateRenderable uqb uid).
Proof.
  pose proof updateText_pres. unfold updateRenderable. eauto 20 with pipe.
Qed.

End PipeFacts.

(** ** Destruction and teardown *)

Lemma generating_at_eq s m uid a g :
  _gpuText s = Some m -> m !! uid = Some (Some a) -> heap s !! a = Some g ->
  generating_at s uid = generatingTexture g.
Proof.
  intros Hm Hu Ha. unfold generating_at, recordOf. rewrite Hm. simpl. rewrite Hu. simpl.
  by rewrite Ha.
Qed.

(** What [_destroyRenderableById] does to a record of the map. *)
Lemma destroyById_live uid s m a g :
  _gpuText s = Some m -> is_Some (_renderer s) -> m !! uid = Some (Some a) ->
  heap s !! a = Some g ->
  _destroyRenderableById uid s
  = Ok tt (set_gpuText (Some (<[uid := None]> m))
             (set_log (PoolReturn (batchableSprite g)
                         :: DecreaseReferenceCount (currentKey g) :: log s)
                (set_pool (batchableSprite g :: pool s) s))).
Proof.
  intros Hm [R HR] Hu Ha.
  unfold _destroyRenderableById, bind, this_gpuText, this_renderer.
  rewrite Hm, HR, Hu. unfold read_gpuText. rewrite Ha.
  unfold emit, BigPool_return, store_gpuText, bind, this_gpuText, modify. sim.
  rewrite Hm. reflexivity.
Qed.

(** ... and to anything else: the dereference of [gpuText] faults. *)
Lemma destroyById_dead uid s m :
  _gpuText s = Some m -> (forall a, m !! uid <> Some (Some a)) ->
  _destroyRenderableById uid s = Throw TypeError s.
Proof.
  intros Hm Hu.
  unfold _destroyRenderableById, bind, this_gpuText, this_renderer.
  rewrite Hm. destruct (_renderer s); [|done].
  destruct (m !! uid) as [[a|]|] eqn:E; try done. by destruct (Hu a).
Qed.

Lemma destroyById_cases uid s :
  (exists m a g, _gpuText s = Some m /\ is_Some (_renderer s) /\
     m !! uid = Some (Some a) /\ heap s !! a = Some g /\
     _destroyRenderableById uid s
     = Ok tt (set_gpuText (Some (<[uid := None]> m))
                (set_log (PoolReturn (batchableSprite g)
                            :: DecreaseReferenceCount (currentKey g) :: log s)
                   (set_pool (batchableSprite g :: pool s) s)))) \/
  (exists e, _destroyRenderableById uid s = Throw e s).
Proof.
  destruct (_gpuText s) as [m|] eqn:Hm.
  2:{ right. exists TypeError. unfold _destroyRenderableById, bind, this_gpuText.
      by rewrite Hm. }
  destruct (_renderer s) as [R|] eqn:HR.
  2:{ right. exists TypeError. unfold _destroyRenderableById, bind, this_gpuText, this_renderer.
      by rewrite Hm, HR. }
  destruct (m !! uid) as [[a|]|] eqn:Hu.
  2,3: right; exists TypeError; apply (destroyById_dead uid s m); [done|congruence].
  destruct (heap s !! a) as [g|] eqn:Ha.
  - left. exists m, a, g. split; [done|]. split; [eauto|]. do 2 (split; [done|]).
    apply (destroyById_live uid s m a g); eauto.
  - right. exists TypeError.
    unfold _destroyRenderableById, bind, this_gpuText, this_renderer.
    rewrite Hm, HR, Hu. unfold read_gpuText. by rewrite Ha.
Qed.

Lemma destroyById_pres c uid s :
  Inv c s -> (c = true -> generating_at s uid = false) ->
  Inv c (state_of (_destroyRenderableById uid s)).
Proof.
  intros (Hb & Hq & Hl) Hcalm.
  destruct (destroyById_cases uid s) as [(m & a & g & Hm & HR & Hu & Ha & ->)|[e ->]];
    [|by split].
  norm. split; [|split].
  - pose proof Hb as []. constructor; sim; try done.
    + intros u a' H. apply (b_live_valid0 u).
      apply (live_eq _ (<[uid:=None]> m)) in H; [|done]. apply (live_eq s m); [done|].
      destruct (decide (u = uid)) as [->|Hne];
        [by rewrite lookup_insert_eq in H|by rewrite lookup_insert_ne in H].
    + intros u1 u2 a' H1 H2. apply (b_live_inj0 u1 u2 a').
      all: match goal with H : live _ ?u _ |- live _ ?u _ =>
             apply (live_eq _ (<[uid:=None]> m)) in H; [|done]; apply (live_eq s m); [done|];
             destruct (decide (u = uid)) as [->|Hne];
             [by rewrite lookup_insert_eq in H|by rewrite lookup_insert_ne in H] end.
    + intros b Hb'. apply elem_of_cons in Hb' as [->|Hb']; eauto.
  - destruct Hq. constructor; sim.
    intros k Hk. unfold reqs, decs. rewrite !count_cons. simpl.
    fold (reqs k (log s)). fold (decs k (log s)).
    rewrite (a_balance0 k Hk). unfold holding, holds. sim. rewrite Hm.
    pose proof (tally_insert (on_record (fun g => bool_decide (currentKey g = k)) (heap s))
                  m uid None) as T.
    rewrite Hu in T. simpl in T. rewrite Ha in T. simpl in T. lia.
  - intros Hc. destruct (Hl Hc) as []. specialize (Hcalm Hc).
    rewrite (generating_at_eq s m uid a g Hm Hu Ha) in Hcalm.
    constructor; sim.
    + intros p Hp. destruct (l_pending_live0 p Hp) as [u Hlive]. exists u.
      apply (live_eq s m) in Hlive; [|done]. apply (live_eq _ (<[uid:=None]> m)); [done|].
      rewrite lookup_insert_ne; [done|]. intros ->.
      assert (s_gpuText p = a) by congruence.
      by eapply pending_not_idle in H.
    + intros k Hk. unfold incs, decs. rewrite !count_cons. simpl.
      fold (incs k (log s)). fold (decs k (log s)).
      rewrite (l_balance0 k Hk). unfold holders. sim. rewrite Hm.
      pose proof (tally_insert (settled k (heap s)) m uid None) as T.
      rewrite Hu in T. simpl in T. rewrite Ha, Hcalm in T. simpl in T. lia.
Qed.

Lemma destroyById_generating uid s j :
  generating_at (state_of (_destroyRenderableById uid s)) j = true ->
  generating_at s j = true.
Proof.
  destruct (destroyById_cases uid s) as [(m & a & g & Hm & HR & Hu & Ha & ->)|[e ->]];
    [|done].
  norm. unfold generating_at, recordOf. sim. rewrite Hm. simpl.
  destruct (decide (j = uid)) as [->|Hne].
  - rewrite lookup_insert_eq. done.
  - by rewrite lookup_insert_ne.
Qed.

Lemma destroy_each_pres c keys s :
  Inv c s -> (c = true -> forall j, j ∈ keys -> generating_at s j = false) ->
  Inv c (state_of (destroy_each keys s)).
Proof.
  revert s. induction keys as [|i keys IH]; intros s Hs Hcalm; [done|].
  simpl. unfold bind.
  pose proof (destroyById_pres c i s Hs (fun Hc => Hcalm Hc i ltac:(left))) as H1.
  pose proof (destroyById_generating i s) as H2.
  destruct (_destroyRenderableById i s) as [[] s'|e s']; sim; [|done].
  apply IH; [done|]. intros Hc j Hj.
  destruct (generating_at s' j) eqn:E; [|done].
  apply H2 in E. rewrite Hcalm in E; [done|done|by right].
Qed.

Lemma fire_destroyed_pres c n uid s :
  Inv c s -> (c = true -> generating_at s uid = false) ->
  Inv c (state_of (fire_destroyed n uid s)).
Proof.
  revert s. induction n as [|n IH]; intros s Hs Hcalm; [done|].
  simpl. unfold bind, destroyRenderable.
  pose proof (destroyById_pres c uid s Hs Hcalm) as H1.
  pose proof (destroyById_generating uid s uid) as H2.
  destruct (_destroyRenderableById uid s) as [[] s'|e s']; sim; [|done].
  apply IH; [done|]. intros Hc.
  destruct (generating_at s' uid) eqn:E; [|done].
  specialize (Hcalm Hc). rewrite H2 in Hcalm; done.
Qed.

Lemma elem_of_ownKeys (m : gmap nat (option nat)) i : i ∈ ownKeys m <-> is_Some (m !! i).
Proof.
  unfold ownKeys. rewrite merge_sort_Permutation. rewrite list_elem_of_fmap. split.
  - intros ([j v] & -> & H). apply elem_of_map_to_list in H. eauto.
  - intros [v H]. exists (i, v). split; [done|]. by apply elem_of_map_to_list.
Qed.

Lemma destroy_each_ok keys s s' m :
  destroy_each keys s = Ok tt s' -> _gpuText s = Some m ->
  exists m', _gpuText s' = Some m' /\
    (forall i, i ∈ keys -> m' !! i = Some None) /\
    (forall i, i ∉ keys -> m' !! i = m !! i).
Proof.
  revert s m. induction keys as [|i keys IH]; intros s m H Hm.
  - injection H as <-. exists m. split; [done|]. split; [|done].
    intros i Hi. by inversion Hi.
  - simpl in H. unfold bind in H.
    destruct (destroyById_cases i s) as [(m0 & a & g & Hm0 & HR & Hu & Ha & E)|[e E]];
      rewrite E in H; [|done].
    assert (m0 = m) as -> by congruence.
    destruct (IH _ (<[i:=None]> m) H eq_refl) as (m' & Hm' & Hin & Hout).
    exists m'. split; [done|]. split.
    + intros j Hj. destruct (decide (j ∈ keys)) as [Hk|Hk]; [by apply Hin|].
      apply elem_of_cons in Hj as [->|Hj]; [|done].
      rewrite (Hout i Hk). apply lookup_insert_eq.
    + intros j Hj. apply not_elem_of_cons in Hj as [Hne Hj].
      rewrite (Hout j Hj). by apply lookup_insert_ne.
Qed.

Lemma destroy_pres c s :
  Inv c s -> (c = true -> calm Destroy s = true) -> Inv c (state_of (destroy s)).
Proof.
  intros Hs Hcalm. unfold destroy, bind, modify.
  destruct (_gpuText s) as [m|] eqn:Hm.
  2:{ sim. destruct Hs as (Hb & Hq & Hl). split; [|split].
      - destruct Hb. constructor; norm; try done.
        + intros u a (m & ? & _). done.
        + intros u1 u2 a (m & ? & _). done.
      - destruct Hq. constructor; norm. intros k Hk.
        rewrite (a_balance0 k Hk). unfold holding. sim. by rewrite Hm.
      - intros Hc. destruct (Hl Hc). constructor; norm.
        + intros p Hp. destruct (l_pending_live0 p Hp) as (u & m & ? & _). congruence.
        + intros k Hk. rewrite (l_balance0 k Hk). unfold holders. sim. by rewrite Hm. }
  assert (Hloop : Inv c (state_of (destroy_each (ownKeys m) s))).
  { apply destroy_each_pres; [done|]. intros Hc j Hj. specialize (Hcalm Hc).
    simpl in Hcalm. rewrite Hm in Hcalm.
    rewrite forallb_forall in Hcalm. apply list_elem_of_In, Hcalm in Hj.
    by apply negb_true_iff in Hj. }
  destruct (destroy_each (ownKeys m) s) as [[] s'|e s'] eqn:E; sim; [|done].
  destruct (destroy_each_ok _ _ _ _ E Hm) as (m' & Hm' & Hin & Hout).
  assert (Hnone : forall i v, m' !! i = Some v -> v = None).
  { intros i v Hv. destruct (decide (i ∈ ownKeys m)) as [Hk|Hk].
    - rewrite (Hin i Hk) in Hv. congruence.
    - rewrite (Hout i Hk) in Hv. destruct Hk. apply elem_of_ownKeys. eauto. }
  destruct Hloop as (Hb & Hq & Hl). split; [|split].
  - destruct Hb. constructor; norm; try done.
    + intros u a (m0 & ? & _). done.
    + intros u1 u2 a (m0 & ? & _). done.
  - destruct Hq. constructor; norm. intros k Hk.
    rewrite (a_balance0 k Hk). unfold holding. sim. rewrite Hm'.
    f_equal. apply tally_zero. intros i v Hv. by rewrite (Hnone i v Hv).
  - intros Hc. destruct (Hl Hc). constructor; norm.
    + intros p Hp. destruct (l_pending_live0 p Hp) as (u & m0 & H0 & Hu).
      assert (m0 = m') as -> by congruence. by apply Hnone in Hu.
    + intros k Hk. rewrite (l_balance0 k Hk). unfold holders. sim. rewrite Hm'.
      f_equal. apply tally_zero. intros i v Hv. by rewrite (Hnone i v Hv).
Qed.

(** ** Completion and rejection of a request *)

Lemma NoDup_fmap_filter {A B} (f : A -> B) (g : A -> bool) (l : list A) :
  NoDup (f <$> l) -> NoDup (f <$> List.filter g l).
Proof.
  induction l as [|x l IH]; intros H; [done|].
  simpl in *. apply NoDup_cons in H as [Hx Hl].
  destruct (g x); [|auto]. simpl. apply NoDup_cons. split; [|auto].
  intros Hin. apply Hx. apply list_elem_of_fmap in Hin as (y & -> & Hy).
  apply list_elem_of_fmap. exists y. split; [done|].
  apply list_elem_of_In. apply list_elem_of_In, filter_In in Hy. tauto.
Qed.

Lemma NoDup_fmap_inj {A B} (f : A -> B) (l : list A) x y :
  NoDup (f <$> l) -> x ∈ l -> y ∈ l -> f x = f y -> x = y.
Proof.
  induction l as [|z l IH]; intros H Hx Hy E; [by inversion Hx|].
  simpl in H. apply NoDup_cons in H as [Hz Hl].
  apply elem_of_cons in Hx as [->|Hx], Hy as [->|Hy]; auto.
  - destruct Hz. rewrite E. apply list_elem_of_fmap. eauto.
  - destruct Hz. rewrite <- E. apply list_elem_of_fmap. eauto.
Qed.

Lemma take_pending_Some req l p rest :
  take_pending req l = Some (p, rest) ->
  p ∈ l /\ request p = req /\ (forall q, q ∈ rest -> q ∈ l /\ q <> p) /\
  (forall {B} (f : Suspended -> B), NoDup (f <$> l) -> NoDup (f <$> rest)).
Proof.
  unfold take_pending. destruct (find _ l) as [p'|] eqn:E; [|done].
  intros [= -> <-]. apply find_some in E as [Hin Heq].
  apply Nat.eqb_eq in Heq. split; [by apply list_elem_of_In|]. split; [done|]. split.
  - intros q Hq. apply list_elem_of_In, filter_In in Hq as [Hq Hne].
    split; [by apply list_elem_of_In|]. intros ->.
    rewrite Heq, Nat.eqb_refl in Hne. done.
  - intros B f. apply NoDup_fmap_filter.
Qed.

Lemma complete_basic s p rest g3 spr' sc' n' lg' :
  basic s -> p ∈ pending s -> (forall q, q ∈ rest -> q ∈ pending s /\ q <> p) ->
  NoDup (s_gpuText <$> rest) ->
  (forall g, heap s !! s_gpuText p = Some g -> batchableSprite g3 = batchableSprite g) ->
  length spr' = length (sprites s) ->
  basic (mkState (_gpuText s) (_renderer s) (<[s_gpuText p := g3]> (heap s))
           spr' (pool s) sc' rest n' lg').
Proof.
  intros Hb Hp Hrest Hnd Hg3 Hlen. pose proof Hb as []. constructor; sim; try done.
  - intros u a H. rewrite length_insert. eauto.
  - intros a g H. rewrite Hlen. destruct (decide (a = s_gpuText p)) as [->|Hne].
    + destruct (b_pending_rec0 p Hp) as (g0 & Hg0 & _).
      rewrite list_lookup_insert_eq in H by (by eapply lookup_lt_Some).
      injection H as <-. rewrite (Hg3 g0 Hg0). eauto.
    + rewrite list_lookup_insert_ne in H by done. eauto.
  - intros b Hb'. rewrite Hlen. eauto.
  - intros q Hq. destruct (Hrest q Hq) as [Hq' Hne].
    rewrite list_lookup_insert_ne; [auto|].
    intros E. apply Hne. symmetry. eapply (NoDup_fmap_inj s_gpuText); eauto.
Qed.

Lemma complete_ledger s p rest g g3 spr' sc' n' lg' :
  basic s -> ledger s -> p ∈ pending s -> (forall q, q ∈ rest -> q ∈ pending s /\ q <> p) ->
  heap s !! s_gpuText p = Some g ->
  generatingTexture g3 = false -> currentKey g3 = currentKey g ->
  (forall k, incs k lg' = bnat (bool_decide (s_key p = k)) + incs k (log s)) ->
  (forall k, decs k lg' = decs k (log s)) ->
  ledger (mkState (_gpuText s) (_renderer s) (<[s_gpuText p := g3]> (heap s))
           spr' (pool s) sc' rest n' lg').
Proof.
  intros Hb [] Hp Hrest Hg Hgen Hkey Hi Hd. constructor; sim.
  - intros q Hq. apply l_pending_live0. by apply Hrest.
  - intros k Hk. rewrite Hi, Hd, (l_balance0 k Hk). unfold holders. sim.
    destruct (l_pending_live0 p Hp) as (u & m & Hm & Hu). rewrite Hm.
    destruct (b_pending_rec _ Hb p Hp) as (g' & Hg' & Hgen' & Hkey').
    assert (g' = g) as -> by congruence.
    unfold settled.
    pose proof (tally_update
                  (fun g => negb (generatingTexture g) && bool_decide (currentKey g = k))
                  s m u (s_gpuText p) g3 Hb Hm Hu) as T.
    simpl in T. rewrite Hg in T.
    rewrite list_lookup_insert_eq in T by (by eapply lookup_lt_Some).
    rewrite Hgen, Hgen', Hkey, Hkey' in T. simpl in T. lia.
Qed.

Lemma on_record_insert_same P (h : list GpuText) a g g' oa :
  h !! a = Some g -> P g' = P g -> on_record P (<[a:=g']> h) oa = on_record P h oa.
Proof.
  intros Ha HP. destruct oa as [a'|]; [|done]. simpl.
  destruct (decide (a' = a)) as [->|Hne].
  - rewrite list_lookup_insert_eq by (by eapply lookup_lt_Some). by rewrite Ha.
  - by rewrite list_lookup_insert_ne.
Qed.

Lemma complete_asked s a g g3 spr' sc' rest n' lg' :
  asked s -> heap s !! a = Some g -> currentKey g3 = currentKey g ->
  (forall k, reqs k lg' = reqs k (log s)) ->
  (forall k, decs k lg' = decs k (log s)) ->
  asked (mkState (_gpuText s) (_renderer s) (<[a := g3]> (heap s))
           spr' (pool s) sc' rest n' lg').
Proof.
  intros [] Hg Hkey Hi Hd. constructor; sim.
  intros k Hk. rewrite Hi, Hd, (a_balance0 k Hk). f_equal.
  unfold holding, holds. sim. destruct (_gpuText s) as [m|]; [|done].
  apply tally_ext. intros i v Hv. symmetry.
  apply (on_record_insert_same _ _ a g); [done|]. simpl. by rewrite Hkey.
Qed.

Section SettleFacts.

Variable uqb : Bounds -> Z * Z -> Texture -> Z -> Bounds.

(** The completion writes the record and the entry it captured, then goes on
    with the view and the bounds. *)
Lemma resume_prefix p tex s g sp :
  heap s !! s_gpuText p = Some g -> sprites s !! batchableSprite g = Some sp ->
  _updateGpuText_resume uqb p tex s
  = (onUpdate (s_renderable p) ;;
     v <- viewOf (s_renderable p) ;;
     sp <- read_sprite (batchableSprite g) ;;
     write_sprite (batchableSprite g)
       (set_sprite_bounds
          (uqb (BatchableSprite.bounds sp) (anchor v) (BatchableSprite.texture sp)
             (padding (_style v))) sp))
      (set_heap (<[s_gpuText p :=
                    set_textureNeedsUploading true
                      (set_generatingTexture false (set_texture tex g))]> (heap s))
         (set_sprites (<[batchableSprite g := set_sprite_texture tex sp]> (sprites s)) s)).
Proof.
  intros Hg Hsp. unfold _updateGpuText_resume.
  unfold bind at 1. unfold read_gpuText at 1. rewrite Hg.
  unfold bind at 1. unfold assign_gpuText at 1, bind at 1, read_gpuText at 1. rewrite Hg.
  unfold write_gpuText at 1, modify at 1.
  unfold bind at 1. unfold assign_sprite at 1, bind at 1, read_sprite at 1. sim. rewrite Hsp.
  unfold write_sprite at 1, modify at 1.
  unfold bind at 1. unfold assign_gpuText at 1, bind at 1, read_gpuText at 1. sim.
  rewrite list_lookup_insert_eq by (by eapply lookup_lt_Some).
  unfold write_gpuText at 1, modify at 1.
  unfold bind at 1. unfold assign_gpuText at 1, bind at 1, read_gpuText at 1. sim.
  rewrite list_lookup_insert_eq by (rewrite length_insert; by eapply lookup_lt_Some).
  unfold write_gpuText at 1, modify at 1.
  f_equal. norm. rewrite !list_insert_insert_eq. reflexivity.
Qed.

Lemma resolve_pres c req tex s :
  Inv c s -> Inv c (state_of (exec uqb (Resolve req tex) s)).
Proof.
  intros (Hb & Hq & Hl). simpl.
  destruct (take_pending req (pending s)) as [[p rest]|] eqn:E; [|by split].
  apply take_pending_Some in E as (Hp & Hreq & Hrest & Hnd).
  destruct (b_pending_rec _ Hb p Hp) as (g & Hg & Hgen & Hkey).
  destruct (lookup_lt_is_Some_2 (sprites s) (batchableSprite g)) as [sp Hsp];
    [by eapply b_sprite_valid|].
  assert (Hmid : Inv c (set_heap (<[s_gpuText p :=
                    set_textureNeedsUploading true
                      (set_generatingTexture false (set_texture tex g))]> (heap s))
         (set_sprites (<[batchableSprite g := set_sprite_texture tex sp]> (sprites s))
            (set_log (ManagedTextureReady req (s_key p) tex :: log s)
               (set_pending rest s))))).
  { norm. split; [|split].
    - eapply complete_basic; eauto.
      all: try apply length_insert.
      all: try (apply Hnd, (b_pending_nodup _ Hb)).
      all: intros g' Hg'; assert (g' = g) as -> by congruence; done.
    - eapply complete_asked; eauto.
      all: intros k; unfold reqs, decs; by rewrite count_cons.
    - intros Hc. eapply complete_ledger; eauto.
      all: intros k; unfold incs, decs; by rewrite count_cons. }
  unfold catch_console, bind, emit, modify.
  rewrite (resume_prefix p tex _ g sp) by (sim; done).
  match goal with |- context [ bind ?m ?k ?st ] =>
    assert (Hpres : pres c (bind m k)) by eauto 20 with pipe;
    pose proof (Hpres st Hmid) as Htail
  end.
  match type of Htail with Inv _ (state_of ?o) => destruct o as [a s'|e s'] end; sim; [done|].
  eapply Inv_shape; [|exact Htail]. by apply shape_log.
Qed.

Lemma reject_pres c req e s :
  Inv c s -> Inv c (state_of (exec uqb (Reject req e) s)).
Proof.
  intros (Hb & Hask & Hl). simpl.
  destruct (take_pending req (pending s)) as [[p rest]|] eqn:E; [|by split].
  apply take_pending_Some in E as (Hp & Hreq & Hrest & Hnd). norm. split; [|split].
  - pose proof Hb as []. constructor; sim; try done.
    + intros q Hq. apply b_pending_rec0. by apply Hrest.
    + by apply Hnd.
  - destruct Hask. constructor; sim. intros k Hk.
    unfold reqs, decs. rewrite !count_cons. simpl. apply (a_balance0 k Hk).
  - intros Hc. destruct (Hl Hc). constructor; sim.
    + intros q Hq. apply l_pending_live0. by apply Hrest.
    + intros k Hk. unfold incs, decs. rewrite !count_cons. simpl.
      apply (l_balance0 k Hk).
Qed.

End SettleFacts.

(** ** Runs *)

Section RunFacts.

Variable uqb : Bounds -> Z * Z -> Texture -> Z -> Bounds.

Lemma init_Inv c R : Inv c (init R).
Proof.
  split; [|split].
  - constructor; simpl; eauto.
    all: try (intros ? ? (m & [= <-] & H); by rewrite lookup_empty in H).
    all: try (intros ? ? ? (m & [= <-] & H); by rewrite lookup_empty in H).
    all: try (intros ? H; by inversion H).
    all: apply NoDup_nil_2.
  - constructor. intros k Hk. reflexivity.
  - intros _. constructor; simpl.
    + intros p H. by inversion H.
    + intros k Hk. reflexivity.
Qed.

Lemma exec_pres c a s :
  Inv c s -> (c = true -> calm a s = true) -> Inv c (state_of (exec uqb a s)).
Proof.
  intros Hs Hcalm. destruct a as [uid v|uid v|uid|uid|uid|uid|uid| |req tex|req e]; simpl.
  - unfold modify. sim. destruct (scene s !! uid); [done|].
    eapply Inv_shape; [apply shape_scene|done].
  - unfold modify. sim. eapply Inv_shape; [apply shape_scene|done].
  - clear Hcalm. revert s Hs. apply (pres_bind c); [apply validateRenderable_pres|].
    intros _. apply pres_neutral, neutral_ret.
  - by apply addRenderable_pres.
  - by apply updateRenderable_pres.
  - apply destroyById_pres; [done|]. intros Hc. specialize (Hcalm Hc). simpl in Hcalm.
    by apply negb_true_iff in Hcalm.
  - destruct (scene s !! uid) as [r|]; [|done].
    apply fire_destroyed_pres; [done|]. intros Hc. specialize (Hcalm Hc). simpl in Hcalm.
    by apply negb_true_iff in Hcalm.
  - by apply destroy_pres.
  - by apply (resolve_pres uqb c req tex s).
  - by apply (reject_pres uqb c req e s).
Qed.

Lemma run_Inv c acts s :
  Inv c s -> (c = true -> calm_run uqb acts s = true) -> Inv c (run uqb acts s).
Proof.
  revert s. induction acts as [|a acts IH]; intros s Hs Hcalm; [done|].
  simpl. apply IH.
  - apply exec_pres; [done|]. intros Hc. specialize (Hcalm Hc). simpl in Hcalm.
    by apply andb_true_iff in Hcalm as [? _].
  - intros Hc. specialize (Hcalm Hc). simpl in Hcalm.
    by apply andb_true_iff in Hcalm as [_ ?].
Qed.

Lemma run_basic acts R : basic (run uqb acts (init R)).
Proof. apply (run_Inv false); [apply init_Inv|done]. Qed.

Lemma run_asked acts R : asked (run uqb acts (init R)).
Proof. apply (run_Inv false); [apply init_Inv|done]. Qed.

Lemma run_ledger acts R :
  calm_run uqb acts (init R) = true -> ledger (run uqb acts (init R)).
Proof.
  intros H. by apply (run_Inv true acts (init R) (init_Inv true R) (fun _ => H)).
Qed.

End RunFacts.

(** ** What the steps compute *)

Lemma updateGpuText_generating uid s m a g r :
  _gpuText s = Some m -> m !! uid = Some (Some a) -> heap s !! a = Some g ->
  generatingTexture g = true -> scene s !! uid = Some r ->
  _updateGpuText uid s = Ok tt (clear_didUpdate uid s).
Proof.
  intros Hm Hu Ha Hg Hr.
  unfold _updateGpuText, assign_view, _getGpuText, viewOf, this_gpuText, read_gpuText,
    modify, bind, ret.
  rewrite Hr. sim. rewrite Hm, Hu. sim. rewrite Ha, Hg. reflexivity.
Qed.

Lemma updateGpuText_idle uid s m a g r R :
  _gpuText s = Some m -> m !! uid = Some (Some a) -> heap s !! a = Some g ->
  generatingTexture g = false -> scene s !! uid = Some r -> _renderer s = Some R ->
  _updateGpuText uid s
  = Ok tt (begin_regeneration uid a g (set_didUpdate false (view r)) R s).
Proof.
  intros Hm Hu Ha Hg Hr HR.
  unfold _updateGpuText, assign_view, _getGpuText, viewOf, this_gpuText, read_gpuText,
    modify, bind, ret.
  rewrite Hr. sim. rewrite Hm, Hu. sim. rewrite Ha, Hg. sim.
  rewrite lookup_alter_eq, Hr. simpl.
  unfold this_renderer. sim. rewrite HR.
  unfold emit, modify, assign_gpuText, bind, read_gpuText, write_gpuText, modify; sim.
  rewrite Ha; sim.
  rewrite list_lookup_insert_eq by (by eapply lookup_lt_Some). sim.
  rewrite lookup_alter_eq, Hr. simpl. unfold fresh_request, suspend, modify; sim.
  rewrite list_insert_insert_eq. unfold begin_regeneration, clear_didUpdate. norm.
  reflexivity.
Qed.

Lemma first_touch_facts uid s m r :
  basic s -> _gpuText s = Some m -> scene s !! uid = Some r ->
  exists b,
    _gpuText (first_touch uid s) = Some (<[uid := Some (length (heap s))]> m) /\
    _renderer (first_touch uid s) = _renderer s /\
    heap (first_touch uid s) !! length (heap s)
      = Some (mkGpuText false false EMPTY sentinel b) /\
    sprites (first_touch uid s) !! b
      = Some (BatchableSprite.mk (Some uid) EMPTY [0; 1; 0; 0]%Z) /\
    scene (first_touch uid s) !! uid
      = Some (mkRenderable (view r) (S (destroyedListeners r))) /\
    log (first_touch uid s) = OnDestroyed uid :: PoolGet b :: StyleUpdate uid :: log s.
Proof.
  intros Hb Hm Hr. unfold first_touch. sim. rewrite Hm.
  exists (match pool s with b :: _ => b | [] => length (sprites s) end).
  split; [done|]. split; [done|]. split.
  { rewrite lookup_app_r by lia. by rewrite Nat.sub_diag. }
  split.
  { apply list_lookup_insert_eq. destruct (pool s) as [|b pl] eqn:Hp.
    - rewrite length_app. simpl. lia.
    - apply (b_pool_valid _ Hb). rewrite Hp. left. }
  split; [|done]. by rewrite lookup_alter_eq, Hr.
Qed.

Section StepFacts.

Variable uqb : Bounds -> Z * Z -> Texture -> Z -> Bounds.

Lemma regenerate_frame uid a g r R s :
  scene s !! uid = Some r ->
  _gpuText (regenerate uid a g r R s) = _gpuText s /\
  _renderer (regenerate uid a g r R s) = _renderer s /\
  sprites (regenerate uid a g r R s) = sprites s /\
  exists d, scene (regenerate uid a g r R s) !! uid
            = Some (mkRenderable (set_didUpdate d (view r)) (destroyedListeners r)).
Proof.
  intros Hr. unfold regenerate, begin_regeneration, clear_didUpdate.
  case_bool_decide; [|destruct (generatingTexture g)]; norm.
  - do 3 (split; [done|]). exists (_didUpdate (view r)). rewrite Hr.
    by destruct r as [[]].
  - do 3 (split; [done|]). exists false. by rewrite lookup_alter_eq, Hr.
  - do 3 (split; [done|]). exists false. by rewrite lookup_alter_eq, Hr.
Qed.

Lemma updateText_live uid s m a g r R sp :
  _gpuText s = Some m -> m !! uid = Some (Some a) -> heap s !! a = Some g ->
  scene s !! uid = Some r -> _renderer s = Some R ->
  sprites s !! batchableSprite g = Some sp ->
  _updateText uqb uid s
  = Ok tt (recompute_bounds uqb (batchableSprite g) (view r) sp
             (clear_didUpdate uid (regenerate uid a g r R s))).
Proof.
  intros Hm Hu Ha Hr HR Hsp.
  destruct (regenerate_frame uid a g r R s Hr) as (Fm & FR & Fs & d & Fr).
  unfold _updateText.
  unfold bind at 1. unfold viewOf at 1. rewrite Hr.
  unfold bind at 1. rewrite (getGpuText_live uid s m a Hm Hu).
  unfold bind at 1. unfold read_gpuText at 1. rewrite Ha.
  unfold bind at 1.
  assert (E : (if bool_decide (currentKey g = _getKey (view r)) then ret tt
               else catch_console (_updateGpuText uid)) s
              = Ok tt (regenerate uid a g r R s)).
  { unfold regenerate. case_bool_decide; [done|]. unfold catch_console.
    destruct (generatingTexture g) eqn:Hg.
    - by rewrite (updateGpuText_generating uid s m a g r).
    - by rewrite (updateGpuText_idle uid s m a g r R). }
  rewrite E.
  unfold assign_view, bind, viewOf, modify. rewrite Fr. sim.
  rewrite lookup_alter_eq, Fr. simpl.
  unfold read_sprite. sim. rewrite Fs, Hsp.
  unfold write_sprite, modify, recompute_bounds, clear_didUpdate. norm. rewrite Fs.
  reflexivity.
Qed.

Lemma addRenderable_live uid s m a g r R sp :
  _gpuText s = Some m -> m !! uid = Some (Some a) -> heap s !! a = Some g ->
  scene s !! uid = Some r -> _renderer s = Some R ->
  sprites s !! batchableSprite g = Some sp ->
  addRenderable uqb uid s
  = Ok tt (after_step uqb (AddToBatch (batchableSprite g)) uid a g r R sp s).
Proof.
  intros Hm Hu Ha Hr HR Hsp.
  destruct (regenerate_frame uid a g r R s Hr) as (Fm & FR & Fs & d & Fr).
  unfold addRenderable, after_step.
  unfold bind at 1. rewrite (getGpuText_live uid s m a Hm Hu).
  unfold bind at 1. unfold read_gpuText at 1. rewrite Ha.
  unfold bind at 1. unfold viewOf at 1. rewrite Hr.
  unfold bind at 1.
  destruct (_didUpdate (view r)).
  - rewrite (updateText_live uid s m a g r R sp) by done.
    unfold bind, this_renderer, emit, modify, recompute_bounds, clear_didUpdate. sim.
    rewrite FR, HR. reflexivity.
  - unfold ret, bind, this_renderer, emit, modify. rewrite HR. reflexivity.
Qed.

Lemma updateRenderable_live uid s m a g r R sp :
  _gpuText s = Some m -> m !! uid = Some (Some a) -> heap s !! a = Some g ->
  scene s !! uid = Some r -> _renderer s = Some R ->
  sprites s !! batchableSprite g = Some sp ->
  updateRenderable uqb uid s
  = Ok tt (after_step uqb (UpdateElement (batchableSprite g)) uid a g r R sp s).
Proof.
  intros Hm Hu Ha Hr HR Hsp.
  unfold updateRenderable, after_step.
  unfold bind at 1. rewrite (getGpuText_live uid s m a Hm Hu).
  unfold bind at 1. unfold read_gpuText at 1. rewrite Ha.
  unfold bind at 1. unfold viewOf at 1. rewrite Hr.
  unfold bind at 1.
  destruct (_didUpdate (view r)).
  - rewrite (updateText_live uid s m a g r R sp) by done. reflexivity.
  - reflexivity.
Qed.

End StepFacts.

Lemma recordOf_eq s m uid a :
  _gpuText s = Some m -> m !! uid = Some (Some a) -> recordOf s uid = heap s !! a.
Proof. intros Hm Hu. unfold recordOf. rewrite Hm. simpl. rewrite Hu. done. Qed.

Lemma recordOf_none s m uid :
  _gpuText s = Some m -> (forall a, m !! uid <> Some (Some a)) -> recordOf s uid = None.
Proof.
  intros Hm Hu. unfold recordOf. rewrite Hm. simpl.
  destruct (m !! uid) as [[a|]|] eqn:E; try done. by destruct (Hu a).
Qed.

(** The lookup of a record succeeds in every state of a run of a pipe that
    has not been torn down, and a second lookup finds the same record. *)
Lemma getGpuText_ensures uid s r :
  basic s -> is_Some (_gpuText s) -> scene s !! uid = Some r ->
  exists s1 m1 a g sp l1 R,
    _getGpuText uid s = Ok a s1 /\ _gpuText s1 = Some m1 /\
    m1 !! uid = Some (Some a) /\ heap s1 !! a = Some g /\
    sprites s1 !! batchableSprite g = Some sp /\
    scene s1 !! uid = Some (mkRenderable (view r) l1) /\
    _renderer s1 = Some R /\
    sp = default (freshEntry uid) (entryOf s uid).
Proof.
  intros Hb [m Hm] Hr.
  destruct (b_pipe _ Hb) as [R HR]; [by rewrite Hm|].
  destruct (m !! uid) as [[a|]|] eqn:Hu.
  1:{ assert (Hlive : live s uid a) by (by apply (live_eq s m)).
    destruct (lookup_lt_is_Some_2 (heap s) a) as [g Ha]; [by eapply b_live_valid|].
    destruct (lookup_lt_is_Some_2 (sprites s) (batchableSprite g)) as [sp Hsp];
      [by eapply b_sprite_valid|].
    exists s, m, a, g, sp, (destroyedListeners r), R.
    rewrite (getGpuText_live uid s m a Hm Hu). split_and!; try done.
    - by destruct r.
    - unfold entryOf. rewrite (recordOf_eq s m uid a Hm Hu), Ha. simpl. by rewrite Hsp. }
  all: assert (Hn : forall a, m !! uid <> Some (Some a)) by congruence.
  all: destruct (first_touch_facts uid s m r Hb Hm Hr) as (b & F1 & F2 & F3 & F4 & F5 & F6).
  all: exists (first_touch uid s), (<[uid:=Some (length (heap s))]> m), (length (heap s)),
      (mkGpuText false false EMPTY sentinel b), (freshEntry uid), (S (destroyedListeners r)), R.
  all: rewrite (getGpuText_fresh uid s m r Hm Hn Hr).
  all: split_and!; try done; try congruence; try apply lookup_insert_eq.
  all: unfold entryOf; by rewrite (recordOf_none s m uid Hm Hn).
Qed.

Lemma getGpuText_absorb {A} (k : nat -> M A) uid s s1 m1 a :
  _getGpuText uid s = Ok a s1 -> _gpuText s1 = Some m1 -> m1 !! uid = Some (Some a) ->
  bind (_getGpuText uid) k s = bind (_getGpuText uid) k s1.
Proof.
  intros E Hm Hu. unfold bind. by rewrite E, (getGpuText_live uid s1 m1 a Hm Hu).
Qed.

Section ClaimFacts.

Variable uqb : Bounds -> Z * Z -> Texture -> Z -> Bounds.

Lemma regenerate_record uid a g r R s :
  heap s !! a = Some g ->
  exists g', heap (regenerate uid a g r R s) !! a = Some g' /\
             batchableSprite g' = batchableSprite g.
Proof.
  intros Ha. unfold regenerate, begin_regeneration, clear_didUpdate.
  case_bool_decide; [|destruct (generatingTexture g)]; norm; eauto.
  rewrite list_lookup_insert_eq by (by eapply lookup_lt_Some). eauto.
Qed.

(** The state after the update step, read at the renderable: the flag is
    down and the entry is the earlier entry with its bounds recomputed from
    its own texture. *)
Lemma after_step_reads ev uid a g r R sp s m l :
  _gpuText s = Some m -> m !! uid = Some (Some a) -> heap s !! a = Some g ->
  scene s !! uid = Some (mkRenderable (view r) l) ->
  sprites s !! batchableSprite g = Some sp ->
  let s' := after_step uqb ev uid a g (mkRenderable (view r) l) R sp s in
  flagOf s' uid = Some false /\
  (_didUpdate (view r) = true ->
   entryOf s' uid
   = Some (set_sprite_bounds
             (uqb (BatchableSprite.bounds sp) (anchor (view r))
                (BatchableSprite.texture sp) (padding (_style (view r)))) sp)).
Proof.
  intros Hm Hu Ha Hr Hsp. unfold after_step. simpl.
  destruct (regenerate_frame uid a g _ R s Hr) as (Fm & FR & Fs & d & Fr).
  destruct (regenerate_record uid a g (mkRenderable (view r) l) R s Ha) as (g' & Hg' & Hb').
  destruct (_didUpdate (view r)) eqn:Hd.
  - unfold recompute_bounds, clear_didUpdate. norm. split.
    + unfold flagOf. sim. by rewrite lookup_alter_eq, Fr.
    + intros _. unfold entryOf, recordOf. sim. rewrite Fm, Hm. simpl. rewrite Hu. simpl.
      rewrite Hg'. simpl. rewrite Hb', Fs.
      by rewrite list_lookup_insert_eq by (by eapply lookup_lt_Some).
  - split; [|done]. unfold flagOf. norm. rewrite Hr. simpl. by rewrite Hd.
Qed.

End ClaimFacts.

(** * The claims *)

Section Claims.

Variable uqb : Bounds -> Z * Z -> Texture -> Z -> Bounds.

Lemma reached_basic acts R : basic (reached uqb acts R).
Proof. apply run_basic. Qed.

(** What validate does with a record of the map. *)
Lemma validateRenderable_live uid s m a g r :
  _gpuText s = Some m -> m !! uid = Some (Some a) -> heap s !! a = Some g ->
  scene s !! uid = Some r ->
  validateRenderable uid s
  = Ok (textureNeedsUploading g || negb (bool_decide (currentKey g = _getKey (view r))))
       (if textureNeedsUploading g
        then set_heap (<[a := set_textureNeedsUploading false g]> (heap s)) s
        else s).
Proof.
  intros Hm Hu Ha Hr. unfold validateRenderable.
  unfold bind at 1. rewrite (getGpuText_live uid s m a Hm Hu).
  unfold bind at 1. unfold viewOf. rewrite Hr.
  unfold bind at 1. unfold read_gpuText at 1. rewrite Ha.
  destruct (textureNeedsUploading g).
  - unfold bind, assign_gpuText, bind, read_gpuText, write_gpuText, modify, ret.
    by rewrite Ha.
  - by case_bool_decide.
Qed.

Lemma validateRenderable_twice uid s m a g r :
  _gpuText s = Some m -> m !! uid = Some (Some a) -> heap s !! a = Some g ->
  scene s !! uid = Some r ->
  textureNeedsUploading g = true -> currentKey g = _getKey (view r) ->
  exists s1, validateRenderable uid s = Ok true s1 /\
             validateRenderable uid s1 = Ok false s1.
Proof.
  intros Hm Hu Ha Hr Ht Hk.
  exists (set_heap (<[a := set_textureNeedsUploading false g]> (heap s)) s). split.
  - rewrite (validateRenderable_live uid s m a g r) by done. by rewrite Ht.
  - rewrite (validateRenderable_live uid _ m a (set_textureNeedsUploading false g) r);
      try done.
    + simpl. by rewrite bool_decide_eq_true_2.
    + sim. apply list_lookup_insert_eq. by eapply lookup_lt_Some.
Qed.

(** The completion of a request, when the renderable and the entry of the
    captured record are there. *)
Lemma resolve_completes s p rest tex g sp r :
  take_pending (request p) (pending s) = Some (p, rest) ->
  heap s !! s_gpuText p = Some g -> sprites s !! batchableSprite g = Some sp ->
  scene s !! s_renderable p = Some r ->
  exists s1,
    exec uqb (Resolve (request p) tex) s = Ok tt s1 /\
    _gpuText s1 = _gpuText s /\
    heap s1 = <[s_gpuText p := set_textureNeedsUploading true
                  (set_generatingTexture false (set_texture tex g))]> (heap s) /\
    scene s1 !! s_renderable p
    = Some (mkRenderable (set_didUpdate true (view r)) (destroyedListeners r)) /\
    sprites s1 !! batchableSprite g
    = Some (BatchableSprite.mk (BatchableSprite.sprite sp) tex
              (uqb (BatchableSprite.bounds sp) (anchor (view r)) tex
                 (padding (_style (view r))))).
Proof.
  intros Ht Hg Hsp Hr. simpl. rewrite Ht.
  unfold catch_console, bind at 1, emit at 1, modify at 1.
  rewrite (resume_prefix uqb p tex _ g sp) by (sim; done).
  unfold onUpdate, assign_view, bind, viewOf, emit, read_sprite, write_sprite, modify. sim.
  rewrite Hr. sim. rewrite lookup_alter_eq, Hr. simpl.
  rewrite list_lookup_insert_eq by (by eapply lookup_lt_Some). sim.
  eexists. split; [reflexivity|]. norm. split_and!; try done.
  - by rewrite lookup_alter_eq, Hr.
  - rewrite list_insert_insert_eq.
    by rewrite list_lookup_insert_eq by (by eapply lookup_lt_Some).
Qed.

(** C6: in every state of a run, [validateRenderable] on a renderable that
    has a record returns true exactly when the record's
    [textureNeedsUploading] is set or its [currentKey] differs from the
    renderable's key, and it changes the state only by clearing that flag
    when it was set.  Hence, with the flag set and the keys equal, it returns
    true once and then false; and that is the situation the completion of a
    request leaves when the key has not changed since the request. *)
Theorem validate_reports_pending_upload_or_key_change
    (acts : list Action) (R : Renderer) (uid a : nat) (m : gmap nat (option nat))
    (g : GpuText) (r : Renderable) :
  _gpuText (reached uqb acts R) = Some m ->
  m !! uid = Some (Some a) ->
  heap (reached uqb acts R) !! a = Some g ->
  scene (reached uqb acts R) !! uid = Some r ->
  validateRenderable uid (reached uqb acts R)
  = Ok (textureNeedsUploading g || negb (bool_decide (currentKey g = _getKey (view r))))
       (if textureNeedsUploading g
        then set_heap (<[a := set_textureNeedsUploading false g]>
                         (heap (reached uqb acts R))) (reached uqb acts R)
        else reached uqb acts R) /\
  (textureNeedsUploading g = true -> currentKey g = _getKey (view r) ->
   exists s1, validateRenderable uid (reached uqb acts R) = Ok true s1 /\
              validateRenderable uid s1 = Ok false s1) /\
  (forall p rest tex,
     take_pending (request p) (pending (reached uqb acts R)) = Some (p, rest) ->
     s_renderable p = uid -> s_gpuText p = a ->
     currentKey g = _getKey (view r) ->
     exists s1 s2,
       exec uqb (Resolve (request p) tex) (reached uqb acts R) = Ok tt s1 /\
       validateRenderable uid s1 = Ok true s2 /\
       validateRenderable uid s2 = Ok false s2).
Proof.
  intros Hm Hu Ha Hr. split_and!.
  - by apply (validateRenderable_live uid _ m a g r).
  - intros Ht Hk. by apply (validateRenderable_twice uid _ m a g r).
  - intros p rest tex Hp <- <- Hk.
    destruct (lookup_lt_is_Some_2 (sprites (reached uqb acts R)) (batchableSprite g))
      as [sp Hsp]; [eapply b_sprite_valid; [apply reached_basic|done]|].
    destruct (resolve_completes _ p rest tex g sp r Hp Ha Hsp Hr)
      as (s1 & E & Fm & Fh & Fs & _).
    destruct (validateRenderable_twice (s_renderable p) s1 m (s_gpuText p)
                (set_textureNeedsUploading true
                   (set_generatingTexture false (set_texture tex g)))
                (mkRenderable (set_didUpdate true (view r)) (destroyedListeners r)))
      as (s2 & V1 & V2); try done.
    + congruence.
    + rewrite Fh. apply list_lookup_insert_eq. by eapply lookup_lt_Some.
    + eauto.
Qed.


(** C9: in every state of a run of a pipe that has not been torn down,
    [validateRenderable] on a renderable of the scene that has no record, and
    whose key is not the sentinel, creates the record with the sentinel key,
    the empty texture and both flags down, takes a batch entry from the pool
    and gives it the empty texture and the bounds [0, 1, 0, 0] of area zero,
    registers one more destruction listener, and returns true. *)
Theorem validate_first_touch
    (acts : list Action) (R : Renderer) (uid : nat) (r : Renderable) :
  is_Some (_gpuText (reached uqb acts R)) ->
  (forall a, ~ live (reached uqb acts R) uid a) ->
  scene (reached uqb acts R) !! uid = Some r ->
  _getKey (view r) <> sentinel ->
  exists s' b,
    validateRenderable uid (reached uqb acts R) = Ok true s' /\
    recordOf s' uid = Some (mkGpuText false false EMPTY sentinel b) /\
    entryOf s' uid = Some (BatchableSprite.mk (Some uid) EMPTY [0; 1; 0; 0]%Z) /\
    quadArea [0; 1; 0; 0]%Z = 0%Z /\
    scene s' !! uid = Some (mkRenderable (view r) (S (destroyedListeners r))) /\
    log s' = OnDestroyed uid :: PoolGet b :: StyleUpdate uid :: log (reached uqb acts R).
Proof.
  intros [m Hm] Hn Hr Hk.
  assert (Hn' : forall a, m !! uid <> Some (Some a)).
  { intros a Hu. apply (Hn a). by apply (live_eq _ m). }
  destruct (first_touch_facts uid _ m r (reached_basic acts R) Hm Hr)
    as (b & F1 & F2 & F3 & F4 & F5 & F6).
  exists (first_touch uid (reached uqb acts R)), b. split_and!; try done.
  - unfold validateRenderable.
    unfold bind at 1. rewrite (getGpuText_fresh uid _ m r Hm Hn' Hr).
    unfold bind at 1. unfold viewOf. rewrite F5.
    unfold bind at 1. unfold read_gpuText. rewrite F3. simpl.
    rewrite bool_decide_eq_false_2; [done|]. congruence.
  - rewrite (recordOf_eq _ _ uid _ F1 (lookup_insert_eq _ _ _)). done.
  - unfold entryOf. rewrite (recordOf_eq _ _ uid _ F1 (lookup_insert_eq _ _ _)), F3. done.
Qed.


End Claims.

Section Claims2.

Variable uqb : Bounds -> Z * Z -> Texture -> Z -> Bounds.

Lemma generating_at_inv s uid :
  generating_at s uid = true ->
  exists m a g, _gpuText s = Some m /\ m !! uid = Some (Some a) /\
                heap s !! a = Some g /\ generatingTexture g = true.
Proof.
  unfold generating_at, recordOf. destruct (_gpuText s) as [m|] eqn:Hm; [|done]. simpl.
  destruct (m !! uid) as [[a|]|] eqn:Hu; try done. simpl.
  destruct (heap s !! a) as [g|] eqn:E; [|done]. intros Hg.
  exists m, a, g. done.
Qed.

Lemma requests_cons ev l : requests (ev :: l) = bnat (is_request ev) + requests l.
Proof. apply count_cons. Qed.

(** A change of content or style followed by add or update, on a record
    whose flag is set, asks the provider for nothing. *)
Lemma gated_step s uid v act :
  basic s -> generating_at s uid = true -> act = Add uid \/ act = Update uid ->
  pending (run uqb [Change uid v; act] s) = pending s /\
  requests (log (run uqb [Change uid v; act] s)) = requests (log s).
Proof.
  intros Hb Hgen Hact.
  destruct (generating_at_inv s uid Hgen) as (m & a & g & Hm & Hu & Ha & Hg).
  destruct (b_pipe _ Hb) as [R HR]; [by rewrite Hm|].
  destruct (lookup_lt_is_Some_2 (sprites s) (batchableSprite g)) as [sp Hsp];
    [by eapply b_sprite_valid|].
  unfold run. simpl fold_left.
  set (s0 := set_scene _ s).
  assert (Hm0 : _gpuText s0 = Some m) by done.
  assert (Ha0 : heap s0 !! a = Some g) by done.
  assert (HR0 : _renderer s0 = Some R) by done.
  assert (Hsp0 : sprites s0 !! batchableSprite g = Some sp) by done.
  destruct (scene s !! uid) as [r|] eqn:Hr.
  - assert (Hr0 : scene s0 !! uid
                  = Some (mkRenderable (set_didUpdate true v) (destroyedListeners r))).
    { unfold s0. sim. by rewrite lookup_alter_eq, Hr. }
    assert (E : forall ev,
      pending (after_step uqb ev uid a g
                 (mkRenderable (set_didUpdate true v) (destroyedListeners r)) R sp s0)
      = pending s /\
      requests (log (after_step uqb ev uid a g
                 (mkRenderable (set_didUpdate true v) (destroyedListeners r)) R sp s0))
      = bnat (is_request ev) + requests (log s)).
    { intros ev. unfold after_step, regenerate, recompute_bounds, clear_didUpdate. simpl.
      rewrite Hg. case_bool_decide; norm; by rewrite requests_cons. }
    destruct Hact as [-> | ->]; simpl.
    + rewrite (addRenderable_live uqb uid s0 m a g _ R sp Hm0 Hu Ha0 Hr0 HR0 Hsp0).
      apply E.
    + rewrite (updateRenderable_live uqb uid s0 m a g _ R sp Hm0 Hu Ha0 Hr0 HR0 Hsp0).
      apply E.
  - assert (Hr0 : scene s0 !! uid = None).
    { unfold s0. sim. by rewrite lookup_alter_eq, Hr. }
    assert (EA : addRenderable uqb uid s0 = Throw TypeError s0).
    { unfold addRenderable. unfold bind at 1. rewrite (getGpuText_live uid s0 m a Hm0 Hu).
      unfold bind at 1. unfold read_gpuText. rewrite Ha0.
      unfold bind at 1. unfold viewOf. by rewrite Hr0. }
    assert (EU : updateRenderable uqb uid s0 = Throw TypeError s0).
    { unfold updateRenderable. unfold bind at 1.
      rewrite (getGpuText_live uid s0 m a Hm0 Hu).
      unfold bind at 1. unfold read_gpuText. rewrite Ha0.
      unfold bind at 1. unfold viewOf. by rewrite Hr0. }
    destruct Hact as [-> | ->]; simpl; rewrite ?EA, ?EU; by split.
Qed.

(** C2: in every state of a run no two suspended [_updateGpuText] calls wait
    on the same record, and the record of each has [generatingTexture] set;
    and when a record has the flag set, a change of content or style followed
    by add or update suspends no further call and sends no further
    [getManagedTexture] request. *)
Theorem single_flight_per_record (acts : list Action) (R : Renderer) :
  single_flight (reached uqb acts R) /\
  forall uid v act,
    generating_at (reached uqb acts R) uid = true ->
    act = Add uid \/ act = Update uid ->
    pending (run uqb [Change uid v; act] (reached uqb acts R))
    = pending (reached uqb acts R) /\
    requests (log (run uqb [Change uid v; act] (reached uqb acts R)))
    = requests (log (reached uqb acts R)).
Proof.
  pose proof (reached_basic uqb acts R) as Hb. split.
  - split; [apply (b_pending_nodup _ Hb)|].
    intros p Hp. destruct (b_pending_rec _ Hb p Hp) as (g & Hg & Hgen & _). eauto.
  - intros uid v act. by apply gated_step.
Qed.


End Claims2.

(** C3: after a rejected request the error is logged and nothing is left
    suspended, but the record keeps [generatingTexture] set: a later change of
    the text to a new key is seen by validate, and update after it sends no
    request and leaves the record as it was. *)
Theorem failed_regeneration_is_never_retried :
  count is_error (log afterFailure) = 1 /\
  pending afterFailure = [] /\
  recordOf afterFailure 1 = Some (mkGpuText false true EMPTY "A" 0) /\
  flagOf (run sampleQuadBounds [Change 1 (sampleView "B")] afterFailure) 1 = Some true /\
  validateRenderable 1 (run sampleQuadBounds [Change 1 (sampleView "B")] afterFailure)
  = Ok true (run sampleQuadBounds [Change 1 (sampleView "B")] afterFailure) /\
  requests (log afterRetry) = requests (log afterFailure) /\
  pending afterRetry = [] /\
  recordOf afterRetry 1 = Some (mkGpuText false true EMPTY "A" 0).
Proof. vm_compute. repeat split. Qed.

(** C4: renderable 1 is destroyed while its request is outstanding and its
    batch entry goes back to the pool; renderable 2 takes that entry.  When
    the request of renderable 1 completes, the destroyed record receives the
    texture and the flags, and the entry, now of renderable 2, receives the
    texture made for renderable 1 and bounds computed from it. *)
Theorem completion_writes_destroyed_record :
  recordOf destroyedInFlight 1 = None /\
  heap destroyedInFlight !! 0 = Some (mkGpuText false true EMPTY "A" 0) /\
  pool destroyedInFlight = [] /\
  entryOf destroyedInFlight 2 = Some (BatchableSprite.mk (Some 2) EMPTY [-2; -1; -2; -1]%Z) /\
  recordOf destroyedInFlight 2 = Some (mkGpuText false true EMPTY "B" 0) /\
  heap lateCompletion !! 0 = Some (mkGpuText true false (Managed 7) "A" 0) /\
  recordOf lateCompletion 2 = Some (mkGpuText false true EMPTY "B" 0) /\
  entryOf lateCompletion 2
  = Some (BatchableSprite.mk (Some 2) (Managed 7) [-2; 5; -2; 5]%Z).
Proof. vm_compute. repeat split. Qed.

(** C5: the first destruction of a renderable decrements the count of its
    key once and returns its entry to the pool once; a second destruction,
    called directly or through the ['destroyed'] listener, throws a TypeError
    before it does either. *)
Theorem second_destruction_throws :
  destroyRenderable 1 settledOne = Ok tt destroyedOnce /\
  decs "A" (log destroyedOnce) = 1 /\
  count is_release (log destroyedOnce) = 1 /\
  pool destroyedOnce = [0] /\
  destroyRenderable 1 destroyedOnce = Throw TypeError destroyedOnce /\
  exec sampleQuadBounds (EmitDestroyed 1) destroyedOnce = Throw TypeError destroyedOnce.
Proof. vm_compute. repeat split. Qed.

(** C8: on a pipe whose only renderable was destroyed before, [destroy()]
    throws a TypeError at the entry left behind and the pipe keeps its state;
    so it does with one of two renderables destroyed, and the other record
    stays in the map.  On a pipe whose records are all in the map it
    decrements and returns each and releases its state, and on a pipe that
    never held a record it completes. *)
Theorem destroy_faults_on_destroyed_entry :
  recordOf destroyedOnce 1 = None /\
  destroy destroyedOnce = Throw TypeError destroyedOnce /\
  recordOf oneOfTwoDestroyed 1 = None /\
  recordOf oneOfTwoDestroyed 2 = Some (mkGpuText true false (Managed 8) "B" 1) /\
  destroy oneOfTwoDestroyed = Throw TypeError oneOfTwoDestroyed /\
  _gpuText (state_of (destroy settledOne)) = None /\
  _renderer (state_of (destroy settledOne)) = None /\
  log (state_of (destroy settledOne))
  = PoolReturn 0 :: DecreaseReferenceCount "A" :: log settledOne /\
  destroy (sampleRun []) = Ok tt (set_renderer None (set_gpuText None (sampleRun []))).
Proof. vm_compute. repeat split. Qed.



Lemma single_flight_per_record_witness :
  generating_at (reached sampleQuadBounds [Spawn 1 (sampleView "A"); Add 1] sampleRenderer) 1
  = true /\
  single_flight (reached sampleQuadBounds [Spawn 1 (sampleView "A"); Add 1] sampleRenderer) /\
  requests (log (run sampleQuadBounds [Change 1 (sampleView "B"); Update 1]
                   (reached sampleQuadBounds [Spawn 1 (sampleView "A"); Add 1] sampleRenderer)))
  = requests (log (reached sampleQuadBounds [Spawn 1 (sampleView "A"); Add 1] sampleRenderer)).
Proof.
  split; [vm_compute; reflexivity|].
  destruct (single_flight_per_record sampleQuadBounds
              [Spawn 1 (sampleView "A"); Add 1] sampleRenderer) as [H1 H2].
  split; [exact H1|].
  apply (H2 1 (sampleView "B") (Update 1)).
  - vm_compute; reflexivity.
  - right; reflexivity.
Defined.

Lemma validate_reports_witness :
  validateRenderable 1 inFlight = Ok false inFlight /\
  exists s1 s2,
    exec sampleQuadBounds (Resolve 0 (Managed 7)) inFlight = Ok tt s1 /\
    validateRenderable 1 s1 = Ok true s2 /\
    validateRenderable 1 s2 = Ok false s2.
Proof.
  destruct (validate_reports_pending_upload_or_key_change sampleQuadBounds
              [Spawn 1 (sampleView "A"); Add 1] sampleRenderer 1 0 {[1 := Some 0]}
              (mkGpuText false true EMPTY "A" 0)
              (mkRenderable (set_didUpdate false (sampleView "A")) 1))
    as (H1 & _ & H3); try (vm_compute; reflexivity).
  split; [exact H1|].
  apply (H3 (mkSuspended 0 1 0 "A") [] (Managed 7)); vm_compute; reflexivity.
Defined.


Lemma validate_first_touch_witness :
  exists s' b,
    validateRenderable 1 spawned = Ok true s' /\
    recordOf s' 1 = Some (mkGpuText false false EMPTY sentinel b) /\
    entryOf s' 1 = Some (BatchableSprite.mk (Some 1) EMPTY [0; 1; 0; 0]%Z) /\
    scene s' !! 1 = Some (mkRenderable (sampleView "A") 1).
Proof.
  destruct (validate_first_touch sampleQuadBounds [Spawn 1 (sampleView "A")]
              sampleRenderer 1 (mkRenderable (sampleView "A") 0))
    as (s' & b & E & H1 & H2 & _ & H4 & _).
  - eexists. vm_compute. reflexivity.
  - intros a (m & Hm & Hu). vm_compute in Hm. injection Hm as <-.
    vm_compute in Hu. discriminate.
  - vm_compute. reflexivity.
  - discriminate.
  - exists s', b. split; [exact E|]. split; [exact H1|]. split; [exact H2|exact H4].
Defined.


(** * Further properties *)

(** ** States that ownership cannot tell apart *)

Lemma frame_refl s : frame s s.
Proof. by constructor. Qed.

Lemma frame_trans s1 s2 s3 : frame s1 s2 -> frame s2 s3 -> frame s1 s3.
Proof. intros [] []. constructor; congruence. Qed.

Lemma face_lookup (h h' : list GpuText) a g' :
  face <$> h' = face <$> h -> h' !! a = Some g' ->
  exists g, h !! a = Some g /\ batchableSprite g = batchableSprite g' /\
            texture g = texture g'.
Proof.
  intros E H.
  assert (H1 : (face <$> h') !! a = Some (face g')) by (by rewrite list_lookup_fmap, H).
  rewrite E, list_lookup_fmap in H1.
  destruct (h !! a) as [g|]; simpl in H1; [|done]. exists g.
  unfold face in H1. split; [done|]. split; congruence.
Qed.

Lemma sprite_texture_lookup (l l' : list BatchableSprite.t) b sp' :
  BatchableSprite.texture <$> l' = BatchableSprite.texture <$> l -> l' !! b = Some sp' ->
  exists sp, l !! b = Some sp /\ BatchableSprite.texture sp = BatchableSprite.texture sp'.
Proof.
  intros E H.
  assert (H1 : (BatchableSprite.texture <$> l') !! b = Some (BatchableSprite.texture sp'))
    by (by rewrite list_lookup_fmap, H).
  rewrite E, list_lookup_fmap in H1.
  destruct (l !! b) as [sp|]; simpl in H1; [|done]. exists sp. split; congruence.
Qed.

Lemma live_frame s s' uid a : frame s s' -> live s' uid a <-> live s uid a.
Proof. intros []. unfold live. by rewrite fr_map0. Qed.

Lemma exclusive_frame s s' : frame s s' -> exclusive s -> exclusive s'.
Proof.
  intros Hf [Hnd Hx]. pose proof Hf as []. split; [by rewrite fr_pool0|].
  intros u1 a1 g1' Hl1 Hg1. apply (live_frame s s') in Hl1; [|done].
  destruct (face_lookup _ _ _ _ fr_heap0 Hg1) as (g1 & Hg1' & Hb1 & _).
  destruct (Hx u1 a1 g1 Hl1 Hg1') as [Hp Hu]. rewrite fr_pool0, <- Hb1. split; [done|].
  intros u2 a2 g2' Hl2 Hg2 E. apply (live_frame s s') in Hl2; [|done].
  destruct (face_lookup _ _ _ _ fr_heap0 Hg2) as (g2 & Hg2' & Hb2 & _).
  apply (Hu u2 a2 g2 Hl2 Hg2'). congruence.
Qed.

Lemma textured_frame s s' : frame s s' -> textured s -> textured s'.
Proof.
  intros Hf Ht. pose proof Hf as []. intros uid a g' sp' Hl Hg Hsp.
  apply (live_frame s s') in Hl; [|done].
  destruct (face_lookup _ _ _ _ fr_heap0 Hg) as (g & Hg' & Hb & Htx).
  rewrite <- Hb in Hsp.
  destruct (sprite_texture_lookup _ _ _ _ fr_sprites0 Hsp) as (sp & Hsp' & Hts).
  rewrite <- Htx, <- Hts. eauto.
Qed.

Lemma owned_frame c s s' : frame s s' -> owned c s -> owned c s'.
Proof.
  intros Hf [Hx Ht]. split; [by eapply exclusive_frame|].
  intros Hc. eapply textured_frame; eauto.
Qed.

(** ** Steps that leave ownership alone *)

Lemma frame_log l s : frame s (set_log l s).
Proof. by constructor. Qed.

Lemma frame_scene c s : frame s (set_scene c s).
Proof. by constructor. Qed.

Lemma frame_pending p s : frame s (set_pending p s).
Proof. by constructor. Qed.

Lemma frame_nextRequest n s : frame s (set_nextRequest n s).
Proof. by constructor. Qed.

Lemma frame_heap a g g' s :
  heap s !! a = Some g -> face g' = face g -> frame s (set_heap (<[a:=g']> (heap s)) s).
Proof.
  intros Ha Hk. constructor; sim; try done.
  rewrite list_fmap_insert, Hk. apply list_insert_id. by rewrite list_lookup_fmap, Ha.
Qed.

Lemma frame_sprite b sp sp' s :
  sprites s !! b = Some sp -> BatchableSprite.texture sp' = BatchableSprite.texture sp ->
  frame s (set_sprites (<[b:=sp']> (sprites s)) s).
Proof.
  intros Hb Hk. constructor; sim; try done.
  rewrite list_fmap_insert, Hk. apply list_insert_id. by rewrite list_lookup_fmap, Hb.
Qed.

Lemma still_ret {A} (a : A) : still (ret a).
Proof. intros s. apply frame_refl. Qed.

Lemma still_throw {A} e : still (@throw A e).
Proof. intros s. apply frame_refl. Qed.

Lemma still_bind {A B} (m : M A) (k : A -> M B) :
  still m -> (forall a, still (k a)) -> still (bind m k).
Proof.
  intros Hm Hk s. unfold bind. specialize (Hm s).
  destruct (m s) as [a s'|e s']; sim; [|done].
  eapply frame_trans; [exact Hm|apply Hk].
Qed.

Lemma still_viewOf uid : still (viewOf uid).
Proof. intros s. unfold viewOf. destruct (scene s !! uid); apply frame_refl. Qed.

Lemma still_this_gpuText : still this_gpuText.
Proof. intros s. unfold this_gpuText. destruct (_gpuText s); apply frame_refl. Qed.

Lemma still_this_renderer : still this_renderer.
Proof. intros s. unfold this_renderer. destruct (_renderer s); apply frame_refl. Qed.

Lemma still_read_gpuText a : still (read_gpuText a).
Proof. intros s. unfold read_gpuText. destruct (heap s !! a); apply frame_refl. Qed.

Lemma still_read_sprite b : still (read_sprite b).
Proof. intros s. unfold read_sprite. destruct (sprites s !! b); apply frame_refl. Qed.

Lemma still_emit ev : still (emit ev).
Proof. intros s. apply frame_log. Qed.

Lemma still_assign_view uid f : still (assign_view uid f).
Proof.
  apply still_bind; [apply still_viewOf|]. intros _ s. apply frame_scene.
Qed.

Lemma still_on_destroyed uid : still (on_destroyed uid).
Proof.
  apply still_bind; [apply still_viewOf|]. intros _.
  apply still_bind; [intros s; apply frame_scene|]. intros _. apply still_emit.
Qed.

Lemma still_onUpdate uid : still (onUpdate uid).
Proof.
  apply still_bind; [apply still_assign_view|]. intros _. apply still_emit.
Qed.

Lemma still_fresh_request : still fresh_request.
Proof. intros s. apply frame_nextRequest. Qed.

Lemma still_suspend p : still (suspend p).
Proof. intros s. apply frame_pending. Qed.

Lemma still_assign_gpuText a f :
  (forall g, face (f g) = face g) -> still (assign_gpuText a f).
Proof.
  intros Hf s. unfold assign_gpuText, bind, read_gpuText.
  destruct (heap s !! a) as [g|] eqn:E; [|apply frame_refl].
  eapply frame_heap; eauto.
Qed.

(** [updateQuadBounds] on the bounds of an entry keeps its texture. *)
Lemma still_recompute b (f : BatchableSprite.t -> Bounds) :
  still (sp <- read_sprite b ;; write_sprite b (set_sprite_bounds (f sp) sp)).
Proof.
  intros s. unfold bind, read_sprite.
  destruct (sprites s !! b) as [sp|] eqn:E; [|apply frame_refl].
  by eapply frame_sprite.
Qed.

Lemma still_catch m : still m -> still (catch_console m).
Proof.
  intros Hm s. unfold catch_console. specialize (Hm s).
  destruct (m s) as [a s'|e s']; sim; [done|].
  eapply frame_trans; [exact Hm|]. apply frame_log.
Qed.

#[local] Hint Resolve still_ret still_throw still_viewOf still_this_gpuText
  still_this_renderer still_read_gpuText still_read_sprite still_emit still_assign_view
  still_on_destroyed still_onUpdate still_fresh_request still_suspend still_catch : own.
#[local] Hint Extern 1 (still (assign_gpuText _ _)) =>
  (apply still_assign_gpuText; done) : own.
#[local] Hint Extern 1 (still (bind (read_sprite _) _)) => (apply still_recompute) : own.
#[local] Hint Resolve still_bind | 2 : own.
#[local] Hint Extern 2 (still (if ?b then _ else _)) => destruct b : own.

(** ** Steps that keep ownership *)

Lemma keeps_still c {A} (m : M A) : still m -> keeps c m.
Proof. intros Hm s _ Ho. eapply owned_frame; eauto. Qed.

Lemma keeps_bind c {A B} (m : M A) (k : A -> M B) :
  pres c m -> keeps c m -> (forall a, keeps c (k a)) -> keeps c (bind m k).
Proof.
  intros Hp Hm Hk s Hs Ho. unfold bind.
  specialize (Hp s Hs). specialize (Hm s Hs Ho).
  destruct (m s) as [a s'|e s']; sim; [|done]. by apply Hk.
Qed.

Lemma keeps_catch c m : keeps c m -> keeps c (catch_console m).
Proof.
  intros Hm s Hs Ho. unfold catch_console. specialize (Hm s Hs Ho).
  destruct (m s) as [a s'|e s']; sim; [done|].
  eapply owned_frame; [|exact Hm]. apply frame_log.
Qed.

Lemma updateGpuText_rest_still uid gpuText :
  still (g <- read_gpuText gpuText ;;
         if generatingTexture g then ret tt
         else
           v <- viewOf uid ;;
           let newKey := _getKey v in
           renderer <- this_renderer ;;
           emit (DecreaseReferenceCount (currentKey g)) ;;
           assign_gpuText gpuText (set_generatingTexture true) ;;
           assign_gpuText gpuText (set_currentKey newKey) ;;
           view <- viewOf uid ;;
           let resolution := default (rendererResolution renderer) (resolution view) in
           req <- fresh_request ;;
           emit (GetManagedTexture (text view) resolution (_style view) (_getKey view) req) ;;
           suspend (mkSuspended req uid gpuText (_getKey view))).
Proof. eauto 30 with own. Qed.

Lemma exclusive_ext s s' :
  _gpuText s' = _gpuText s -> pool s' = pool s ->
  batchableSprite <$> heap s' = batchableSprite <$> heap s ->
  exclusive s -> exclusive s'.
Proof.
  intros Hm Hp Hh [Hnd Hx]. split; [by rewrite Hp|].
  assert (L : forall a g', heap s' !! a = Some g' ->
            exists g, heap s !! a = Some g /\ batchableSprite g = batchableSprite g').
  { intros a g' H.
    assert (H1 : (batchableSprite <$> heap s') !! a = Some (batchableSprite g'))
      by (by rewrite list_lookup_fmap, H).
    rewrite Hh, list_lookup_fmap in H1.
    destruct (heap s !! a) as [g|]; simpl in H1; [|done]. exists g. split; congruence. }
  assert (V : forall u a, live s' u a -> live s u a).
  { intros u a. unfold live. by rewrite Hm. }
  intros u1 a1 g1' Hl1 Hg1. destruct (L a1 g1' Hg1) as (g1 & Hg1' & Hb1).
  destruct (Hx u1 a1 g1 (V _ _ Hl1) Hg1') as [Hin Hu]. rewrite Hp, <- Hb1.
  split; [done|]. intros u2 a2 g2' Hl2 Hg2 E.
  destruct (L a2 g2' Hg2) as (g2 & Hg2' & Hb2).
  apply (Hu u2 a2 g2 (V _ _ Hl2) Hg2'). congruence.
Qed.

(** First touch takes an entry nobody holds. *)
Lemma first_touch_owned c uid s m :
  basic s -> owned c s -> _gpuText s = Some m ->
  (forall a, m !! uid <> Some (Some a)) ->
  owned c (first_touch uid s).
Proof.
  intros Hb [[Hnd Hx] Ht] Hm Hu.
  set (b := match pool s with b :: _ => b | [] => length (sprites s) end).
  set (spr := match pool s with
              | _ :: _ => sprites s
              | [] => sprites s ++ [BatchableSprite.mk None EMPTY []]
              end).
  assert (Hb_new : forall u a g, live s u a -> heap s !! a = Some g ->
                     batchableSprite g <> b /\ batchableSprite g < length (sprites s)).
  { intros u a g Hl Hg. pose proof (b_sprite_valid _ Hb a g Hg) as Hv. split; [|done].
    destruct (Hx u a g Hl Hg) as [Hin _]. unfold b.
    destruct (pool s) as [|b0 pl]; [lia|]. intros E. apply Hin. rewrite E. left. }
  assert (Hb_pool : b ∉ tail (pool s)).
  { unfold b. destruct (pool s) as [|b0 pl] eqn:Hp; simpl.
    - apply not_elem_of_nil.
    - by apply NoDup_cons in Hnd as [? _]. }
  assert (Hb_len : b < length spr).
  { unfold b, spr. destruct (pool s) as [|b0 pl] eqn:Hp.
    - rewrite length_app. simpl. lia.
    - apply (b_pool_valid _ Hb). rewrite Hp. left. }
  assert (Hlive : forall u a, live (first_touch uid s) u a ->
            (u = uid /\ a = length (heap s)) \/ (u <> uid /\ live s u a)).
  { intros u a Hl. apply (live_eq _ (<[uid := Some (length (heap s))]> m)) in Hl.
    2:{ unfold first_touch. sim. by rewrite Hm. }
    destruct (decide (u = uid)) as [->|Hne].
    - rewrite lookup_insert_eq in Hl. left. split; congruence.
    - rewrite lookup_insert_ne in Hl by done. right. split; [done|].
      by apply (live_eq s m). }
  assert (Hrec : forall u a g, live (first_touch uid s) u a ->
            heap (first_touch uid s) !! a = Some g ->
            (u = uid /\ g = mkGpuText false false EMPTY sentinel b) \/
            (u <> uid /\ live s u a /\ heap s !! a = Some g)).
  { intros u a g Hl Hg. unfold first_touch in Hg. sim.
    destruct (Hlive u a Hl) as [[-> ->]|[Hne Hl']].
    - left. split; [done|]. rewrite lookup_app_r in Hg by lia.
      rewrite Nat.sub_diag in Hg. simpl in Hg. by injection Hg as <-.
    - right. split; [done|]. split; [done|].
      rewrite lookup_app_l in Hg; [done|]. by apply (b_live_valid _ Hb u). }
  split; [split|].
  - unfold first_touch. sim. destruct (pool s); [apply NoDup_nil_2|].
    by apply NoDup_cons in Hnd as [_ ?].
  - intros u1 a1 g1 Hl1 Hg1.
    assert (Htail : forall x, x ∈ tail (pool s) -> x ∈ pool s).
    { intros x. destruct (pool s); simpl; [done|]. by right. }
    destruct (Hrec u1 a1 g1 Hl1 Hg1) as [[-> ->]|(Hne1 & Hl1' & Hg1')].
    + split; [exact Hb_pool|]. intros u2 a2 g2 Hl2 Hg2 E.
      destruct (Hrec u2 a2 g2 Hl2 Hg2) as [[-> _]|(Hne2 & Hl2' & Hg2')]; [done|].
      simpl in E. destruct (Hb_new u2 a2 g2 Hl2' Hg2') as [Hneq _]. congruence.
    + destruct (Hx u1 a1 g1 Hl1' Hg1') as [Hin Hpair]. split.
      * unfold first_touch. sim. intros Hc. apply Hin. by apply Htail.
      * intros u2 a2 g2 Hl2 Hg2 E.
        destruct (Hrec u2 a2 g2 Hl2 Hg2) as [[-> ->]|(Hne2 & Hl2' & Hg2')].
        -- simpl in E. destruct (Hb_new u1 a1 g1 Hl1' Hg1') as [Hneq _]. congruence.
        -- eauto.
  - intros Hc uid' a g sp Hl Hg Hsp. unfold first_touch in Hsp. sim.
    fold b in Hsp. fold spr in Hsp.
    destruct (Hrec uid' a g Hl Hg) as [[-> ->]|(Hne & Hl' & Hg')].
    + simpl in Hsp. rewrite list_lookup_insert_eq in Hsp by done.
      injection Hsp as <-. done.
    + destruct (Hb_new uid' a g Hl' Hg') as [Hneq Hlt].
      rewrite list_lookup_insert_ne in Hsp by done.
      apply (Ht Hc uid' a g sp Hl' Hg'). unfold spr in Hsp.
      destruct (pool s); [|done]. by rewrite lookup_app_l in Hsp.
Qed.

Lemma getGpuText_keeps c uid : keeps c (_getGpuText uid).
Proof.
  intros s (Hb & _ & _) Ho.
  destruct (_gpuText s) as [m|] eqn:Hm.
  2:{ unfold _getGpuText, bind, this_gpuText. by rewrite Hm. }
  destruct (m !! uid) as [[a|]|] eqn:Hu.
  { by rewrite (getGpuText_live uid s m a Hm Hu). }
  all: assert (Hn : forall a, m !! uid <> Some (Some a)) by (intros a; congruence).
  all: destruct (scene s !! uid) as [r|] eqn:Hr.
  2,4: unfold _getGpuText, _initGpuText, bind, this_gpuText, viewOf;
       by rewrite Hm, Hu, Hr.
  all: rewrite (getGpuText_fresh uid s m r Hm Hn Hr); sim.
  all: by apply (first_touch_owned c uid s m).
Qed.

#[local] Hint Resolve keeps_still keeps_catch getGpuText_keeps : own.
#[local] Hint Resolve keeps_bind | 3 : own.
#[local] Hint Extern 2 (keeps _ (if ?b then _ else _)) => destruct b : own.

Lemma updateGpuText_keeps c uid : keeps c (_updateGpuText uid).
Proof.
  unfold _updateGpuText.
  apply keeps_bind; [eauto with pipe|eauto with own|]. intros _.
  apply keeps_bind; [eauto with pipe|eauto with own|]. intros gpuText.
  apply keeps_still, updateGpuText_rest_still.
Qed.

#[local] Hint Resolve updateGpuText_keeps : own.

Lemma validateRenderable_keeps c uid : keeps c (validateRenderable uid).
Proof.
  unfold validateRenderable.
  apply keeps_bind; [eauto with pipe|eauto with own|]. intros gpuText.
  apply keeps_still. eauto 20 with own.
Qed.

Section OwnedSteps.

Variable uqb : Bounds -> Z * Z -> Texture -> Z -> Bounds.

Lemma updateText_keeps c uid : keeps c (_updateText uqb uid).
Proof.
  unfold _updateText.
  apply keeps_bind; [eauto with pipe|eauto with own|]. intros v.
  apply keeps_bind; [eauto with pipe|eauto with own|]. intros gpuText.
  apply keeps_bind; [eauto with pipe|eauto with own|]. intros g.
  apply keeps_bind.
  { case_bool_decide; eauto with pipe. }
  { case_bool_decide; eauto with own. }
  intros _. apply keeps_still. eauto 20 with own.
Qed.

Lemma addRenderable_keeps c uid : keeps c (addRenderable uqb uid).
Proof.
  pose proof updateText_keeps. pose proof (updateText_pres uqb).
  unfold addRenderable.
  apply keeps_bind; [eauto with pipe|eauto with own|]. intros gpuText.
  apply keeps_bind; [eauto with pipe|eauto with own|]. intros g.
  apply keeps_bind; [eauto with pipe|eauto with own|]. intros v.
  apply keeps_bind.
  { destruct (_didUpdate v); eauto with pipe. }
  { destruct (_didUpdate v); eauto with own. }
  intros _. apply keeps_still. eauto 20 with own.
Qed.

Lemma updateRenderable_keeps c uid : keeps c (updateRenderable uqb uid).
Proof.
  pose proof updateText_keeps. pose proof (updateText_pres uqb).
  unfold updateRenderable.
  apply keeps_bind; [eauto with pipe|eauto with own|]. intros gpuText.
  apply keeps_bind; [eauto with pipe|eauto with own|]. intros g.
  apply keeps_bind; [eauto with pipe|eauto with own|]. intros v.
  apply keeps_bind.
  { destruct (_didUpdate v); eauto with pipe. }
  { destruct (_didUpdate v); eauto with own. }
  intros _. apply keeps_still. eauto 20 with own.
Qed.

End OwnedSteps.

(** Destroying a record hands its entry back; nobody else held it. *)
Lemma destroyById_owned c uid s :
  owned c s -> owned c (state_of (_destroyRenderableById uid s)).
Proof.
  intros Ho.
  destruct (destroyById_cases uid s) as [(m & a & g & Hm & HR & Hu & Ha & E)|[e E]];
    rewrite E; sim; [|done].
  destruct Ho as [[Hnd Hx] Ht].
  assert (Hl : live s uid a) by (by exists m).
  assert (V : forall u a', live (set_gpuText (Some (<[uid:=None]> m))
                 (set_log (PoolReturn (batchableSprite g)
                             :: DecreaseReferenceCount (currentKey g) :: log s)
                    (set_pool (batchableSprite g :: pool s) s))) u a' ->
              u <> uid /\ live s u a').
  { intros u a' (m' & Hm' & Hu'). sim. injection Hm' as <-.
    destruct (decide (u = uid)) as [->|Hne].
    - by rewrite lookup_insert_eq in Hu'.
    - rewrite lookup_insert_ne in Hu' by done. split; [done|]. by exists m. }
  split; [split|].
  - sim. apply NoDup_cons. split; [|done]. by apply (Hx uid a g).
  - intros u1 a1 g1 Hl1 Hg1. sim. apply V in Hl1 as [Hne1 Hl1].
    destruct (Hx u1 a1 g1 Hl1 Hg1) as [Hin Hpair]. split.
    + apply not_elem_of_cons. split; [|done]. intros E1.
      apply Hne1. by apply (Hpair uid a g).
    + intros u2 a2 g2 Hl2 Hg2. apply V in Hl2 as [_ Hl2]. by apply (Hpair u2 a2 g2).
  - intros Hc u a' g' sp Hl' Hg' Hsp. sim. apply V in Hl' as [_ Hl'].
    by apply (Ht Hc u a' g' sp).
Qed.

Lemma destroy_each_owned c keys s :
  owned c s -> owned c (state_of (destroy_each keys s)).
Proof.
  revert s. induction keys as [|i keys IH]; intros s Ho; [done|].
  simpl. unfold bind. pose proof (destroyById_owned c i s Ho) as H1.
  destruct (_destroyRenderableById i s) as [[] s'|e s']; sim; [|done].
  by apply IH.
Qed.

Lemma fire_destroyed_owned c n uid s :
  owned c s -> owned c (state_of (fire_destroyed n uid s)).
Proof.
  revert s. induction n as [|n IH]; intros s Ho; [done|].
  simpl. unfold bind, destroyRenderable.
  pose proof (destroyById_owned c uid s Ho) as H1.
  destruct (_destroyRenderableById uid s) as [[] s'|e s']; sim; [|done].
  by apply IH.
Qed.

Lemma owned_torn_down c s t :
  owned c s -> _gpuText t = None -> pool t = pool s -> owned c t.
Proof.
  intros [[Hnd _] _] Hm Hp. split; [split|].
  - by rewrite Hp.
  - intros u a g (m & ? & _). congruence.
  - intros _ u a g sp (m & ? & _). congruence.
Qed.

Lemma destroy_owned c s : owned c s -> owned c (state_of (destroy s)).
Proof.
  intros Ho. unfold destroy, bind, modify.
  destruct (_gpuText s) as [m|] eqn:Hm.
  2:{ sim. by apply (owned_torn_down c s). }
  pose proof (destroy_each_owned c (ownKeys m) s Ho) as H1.
  destruct (destroy_each (ownKeys m) s) as [[] s'|e s']; sim; [|done].
  by apply (owned_torn_down c s').
Qed.

Section OwnedRuns.

Variable uqb : Bounds -> Z * Z -> Texture -> Z -> Bounds.

(** The continuation writes the texture to the record it captured and to
    that record's entry; while the record is in the map no other record
    shares the entry. *)
Lemma resolve_owned c req tex s :
  Inv c s -> owned c s -> owned c (state_of (exec uqb (Resolve req tex) s)).
Proof.
  intros (Hb & Hq & Hl) Ho. simpl.
  destruct (take_pending req (pending s)) as [[p rest]|] eqn:E; [|done].
  apply take_pending_Some in E as (Hp & Hreq & Hrest & Hnd).
  destruct (b_pending_rec _ Hb p Hp) as (g & Hg & Hgen & Hkey).
  destruct (lookup_lt_is_Some_2 (sprites s) (batchableSprite g)) as [sp Hsp];
    [by eapply b_sprite_valid|].
  set (g' := set_textureNeedsUploading true
               (set_generatingTexture false (set_texture tex g))).
  assert (Hmid : owned c (set_heap (<[s_gpuText p := g']> (heap s))
         (set_sprites (<[batchableSprite g := set_sprite_texture tex sp]> (sprites s))
            (set_log (ManagedTextureReady req (s_key p) tex :: log s)
               (set_pending rest s))))).
  { destruct Ho as [Hx Ht]. split.
    - eapply exclusive_ext; [| | |exact Hx]; sim; try done.
      apply list_eq. intros i. rewrite !list_lookup_fmap.
      destruct (decide (i = s_gpuText p)) as [->|Hne].
      + rewrite list_lookup_insert_eq by (by eapply lookup_lt_Some). by rewrite Hg.
      + by rewrite list_lookup_insert_ne.
    - intros Hc u a g1 sp1 Hl1 Hg1 Hsp1. sim.
      assert (Hl1' : live s u a) by (destruct Hl1 as (m & ? & ?); by exists m).
      destruct (l_pending_live _ (Hl Hc) p Hp) as (up & Hlp).
      destruct (decide (a = s_gpuText p)) as [->|Hne].
      + rewrite list_lookup_insert_eq in Hg1 by (by eapply lookup_lt_Some).
        injection Hg1 as <-. simpl in Hsp1.
        rewrite list_lookup_insert_eq in Hsp1 by (by eapply lookup_lt_Some).
        by injection Hsp1 as <-.
      + rewrite list_lookup_insert_ne in Hg1 by done.
        destruct (decide (batchableSprite g1 = batchableSprite g)) as [Eb|Hnb].
        * destruct Hx as [_ Hx]. destruct (Hx u a g1 Hl1' Hg1) as [_ Hpair].
          specialize (Hpair up (s_gpuText p) g Hlp Hg Eb). subst up.
          destruct Hl1' as (m1 & Hm1 & Hu1), Hlp as (m2 & Hm2 & Hu2). congruence.
        * rewrite list_lookup_insert_ne in Hsp1 by done. by apply (Ht Hc u a g1 sp1). }
  unfold catch_console, bind, emit, modify.
  rewrite (resume_prefix uqb p tex _ g sp) by (sim; done).
  fold g'.
  match goal with |- context [ bind ?m ?k ?st ] =>
    assert (Hst : still (bind m k)) by eauto 20 with own;
    pose proof (Hst st) as Htail
  end.
  match type of Htail with frame _ (state_of ?o) => destruct o as [a s'|e s'] end; sim.
  - eapply owned_frame; [exact Htail|]. norm. exact Hmid.
  - eapply owned_frame; [apply frame_log|].
    eapply owned_frame; [exact Htail|]. norm. exact Hmid.
Qed.

Lemma exec_owned c a s :
  Inv c s -> owned c s -> owned c (state_of (exec uqb a s)).
Proof.
  intros Hs Ho. destruct a as [uid v|uid v|uid|uid|uid|uid|uid| |req tex|req e]; simpl.
  - unfold modify. sim. destruct (scene s !! uid); [done|].
    eapply owned_frame; [apply frame_scene|done].
  - unfold modify. sim. eapply owned_frame; [apply frame_scene|done].
  - revert s Hs Ho. apply (keeps_bind c);
      [apply validateRenderable_pres|apply validateRenderable_keeps|].
    intros _. apply keeps_still, still_ret.
  - by apply addRenderable_keeps.
  - by apply updateRenderable_keeps.
  - by apply destroyById_owned.
  - destruct (scene s !! uid) as [r|]; [|done]. by apply fire_destroyed_owned.
  - by apply destroy_owned.
  - by apply resolve_owned.
  - destruct (take_pending req (pending s)) as [[p rest]|]; [|done]. sim.
    eapply owned_frame; [apply frame_log|].
    eapply owned_frame; [apply frame_pending|done].
Qed.

Lemma run_owned c acts s :
  Inv c s -> owned c s -> (c = true -> calm_run uqb acts s = true) ->
  owned c (run uqb acts s).
Proof.
  revert s. induction acts as [|a acts IH]; intros s Hs Ho Hcalm; [done|].
  simpl. apply IH.
  - apply exec_pres; [done|]. intros Hc. specialize (Hcalm Hc). simpl in Hcalm.
    by apply andb_true_iff in Hcalm as [? _].
  - by apply exec_owned.
  - intros Hc. specialize (Hcalm Hc). simpl in Hcalm.
    by apply andb_true_iff in Hcalm as [_ ?].
Qed.

Lemma init_owned c R : owned c (init R).
Proof.
  split; [split|].
  - apply NoDup_nil_2.
  - intros u a g (m & [= <-] & H). by rewrite lookup_empty in H.
  - intros _ u a g sp (m & [= <-] & H). by rewrite lookup_empty in H.
Qed.

End OwnedRuns.

(** * Further properties of the pipe *)

Lemma recordOf_live s uid g :
  recordOf s uid = Some g <-> exists a, live s uid a /\ heap s !! a = Some g.
Proof.
  unfold recordOf, live. split.
  - destruct (_gpuText s) as [m|]; [|done]. simpl.
    destruct (m !! uid) as [[a|]|] eqn:Hu; try done. simpl. intros Ha.
    exists a. split; [|done]. by exists m.
  - intros (a & (m & -> & Hu) & Ha). simpl. rewrite Hu. done.
Qed.

Lemma destroyById_throws uid s e s' :
  _destroyRenderableById uid s = Throw e s' -> e = TypeError /\ s' = s.
Proof.
  unfold _destroyRenderableById, bind, this_gpuText, this_renderer.
  destruct (_gpuText s) as [m|] eqn:Hm; [|by intros [= <- <-]].
  destruct (_renderer s) as [R|]; [|by intros [= <- <-]].
  destruct (m !! uid) as [[a|]|]; try by intros [= <- <-].
  unfold read_gpuText. destruct (heap s !! a) as [g|]; [|by intros [= <- <-]].
  unfold emit, BigPool_return, store_gpuText, bind, this_gpuText, modify. sim.
  by rewrite Hm.
Qed.

(** [_destroyRenderableById] in a state of a run. *)
Lemma destroyById_outcome uid s :
  basic s ->
  match recordOf s uid with
  | Some g => _destroyRenderableById uid s = Ok tt (released uid g s)
  | None => _destroyRenderableById uid s = Throw TypeError s
  end.
Proof.
  intros Hb. unfold recordOf.
  destruct (_gpuText s) as [m|] eqn:Hm; simpl.
  2:{ unfold _destroyRenderableById, bind, this_gpuText. by rewrite Hm. }
  destruct (m !! uid) as [[a|]|] eqn:Hu; simpl.
  2,3: apply (destroyById_dead uid s m); [done|congruence].
  destruct (lookup_lt_is_Some_2 (heap s) a) as [g Ha].
  { apply (b_live_valid _ Hb uid). by exists m. }
  rewrite Ha. unfold released. rewrite Hm. simpl.
  apply (destroyById_live uid s m a g); try done. apply (b_pipe _ Hb). by rewrite Hm.
Qed.



(** X2: in a run in which no record is destroyed while its
    [generatingTexture] flag is set, the texture of every record of the map
    is the texture of its batch entry. *)
Theorem record_and_entry_show_the_same_texture (uqb : QuadBounds)
    (acts : list Action) (R : Renderer) (uid : nat) (g : GpuText)
    (sp : BatchableSprite.t) :
  calm_run uqb acts (init R) = true ->
  recordOf (reached uqb acts R) uid = Some g ->
  entryOf (reached uqb acts R) uid = Some sp ->
  texture g = BatchableSprite.texture sp.
Proof.
  intros Hcalm Hg Hsp. unfold entryOf in Hsp. rewrite Hg in Hsp. simpl in Hsp.
  apply recordOf_live in Hg as (a & Hl & Hg).
  destruct (run_owned uqb true acts (init R)) as [_ Ht];
    [apply init_Inv|apply init_owned|done|].
  by apply (Ht eq_refl uid a g sp).
Qed.

Lemma record_and_entry_show_the_same_texture_witness :
  texture (mkGpuText true false (Managed 7) "A" 0)
  = BatchableSprite.texture (BatchableSprite.mk (Some 1) (Managed 7) [-2; 5; -2; 5]%Z).
Proof.
  apply (record_and_entry_show_the_same_texture sampleQuadBounds twoShown
           sampleRenderer 1).
  - vm_compute. reflexivity.
  - vm_compute. reflexivity.
  - vm_compute. reflexivity.
Defined.

(** X3: in every state of a run, [destroyRenderable] returns normally exactly
    when the renderable has a record in the map: it then decrements the count
    of the record's key once, returns the record's entry to the pool once and
    leaves [null] under the uid; on anything else it throws a TypeError and
    changes nothing. *)
Theorem destroyRenderable_outcome (uqb : QuadBounds)
    (acts : list Action) (R : Renderer) (uid : nat) :
  match recordOf (reached uqb acts R) uid with
  | Some g =>
      destroyRenderable uid (reached uqb acts R)
      = Ok tt (released uid g (reached uqb acts R)) /\
      recordOf (released uid g (reached uqb acts R)) uid = None
  | None =>
      destroyRenderable uid (reached uqb acts R) = Throw TypeError (reached uqb acts R)
  end.
Proof.
  pose proof (destroyById_outcome uid (reached uqb acts R) (run_basic uqb acts R)) as H.
  destruct (recordOf (reached uqb acts R) uid) as [g|] eqn:E; [|done].
  split; [done|]. unfold recordOf, released in *. sim.
  destruct (_gpuText (reached uqb acts R)) as [m|]; [|done]. simpl.
  by rewrite lookup_insert_eq.
Qed.

(** The loop of [destroy] stops at the first entry that is not a record. *)
Lemma destroy_each_stops keys s m j :
  _gpuText s = Some m -> j ∈ keys -> m !! j = Some None ->
  exists s', destroy_each keys s = Throw TypeError s' /\
             is_Some (_gpuText s') /\ _renderer s' = _renderer s /\
             pending s' = pending s.
Proof.
  revert s m. induction keys as [|i keys IH]; intros s m Hm Hj Hnull.
  { by inversion Hj. }
  simpl. unfold bind.
  destruct (destroyById_cases i s) as [(m0 & a & g & Hm0 & HR & Hu & Ha & E)|[e E]].
  - rewrite E. assert (m0 = m) as -> by congruence.
    assert (Hj' : j ∈ keys).
    { apply elem_of_cons in Hj as [->|Hj]; [congruence|done]. }
    assert (Hj'' : (<[i := None]> m) !! j = Some None).
    { destruct (decide (j = i)) as [->|Hne];
        [apply lookup_insert_eq|by rewrite lookup_insert_ne]. }
    match goal with |- context [destroy_each keys ?t] =>
      destruct (IH t (<[i := None]> m) eq_refl Hj' Hj'') as (s' & E' & H1 & H2 & H3)
    end.
    exists s'. by rewrite E'.
  - rewrite E. destruct (destroyById_throws _ _ _ _ E) as [-> _].
    exists s. rewrite Hm. eauto.
Qed.

(** X4: whatever the state, [destroy()] on a pipe whose map holds a [null]
    entry, which is what the destruction of a renderable leaves behind,
    throws a TypeError inside its loop: the map and the renderer are not
    released, and the suspended calls stay as they are. *)
Theorem destroy_stops_at_a_destroyed_entry
    (s : State) (m : gmap nat (option nat)) (j : nat) :
  _gpuText s = Some m -> m !! j = Some None ->
  exists s', destroy s = Throw TypeError s' /\
             is_Some (_gpuText s') /\ _renderer s' = _renderer s /\
             pending s' = pending s.
Proof.
  intros Hm Hj.
  destruct (destroy_each_stops (ownKeys m) s m j Hm) as (s' & E & H);
    [by apply elem_of_ownKeys|done|].
  exists s'. split; [|done]. unfold destroy. unfold bind at 1. by rewrite Hm, E.
Qed.

Lemma destroy_stops_at_a_destroyed_entry_witness :
  exists s', destroy oneOfTwoDestroyed = Throw TypeError s' /\
             is_Some (_gpuText s') /\ _renderer s' = _renderer oneOfTwoDestroyed /\
             pending s' = pending oneOfTwoDestroyed.
Proof.
  apply (destroy_stops_at_a_destroyed_entry oneOfTwoDestroyed
           {[1 := None; 2 := Some 1]} 1).
  - vm_compute. reflexivity.
  - vm_compute. reflexivity.
Defined.

(** The loop of [destroy] over records of the map. *)
Lemma destroy_each_all keys s m :
  _gpuText s = Some m -> is_Some (_renderer s) -> NoDup keys ->
  (forall i, i ∈ keys -> exists a g, m !! i = Some (Some a) /\ heap s !! a = Some g) ->
  exists s', destroy_each keys s = Ok tt s' /\
    is_Some (_gpuText s') /\
    length (pool s') = length keys + length (pool s) /\
    count is_release (log s') = length keys + count is_release (log s) /\
    (forall k, reqs k (log s') = reqs k (log s)) /\
    requests (log s') = requests (log s).
Proof.
  revert s m. induction keys as [|i keys IH]; intros s m Hm HR Hnd Hall.
  { exists s. rewrite Hm. repeat split; eauto. }
  apply NoDup_cons in Hnd as [Hi Hnd].
  destruct (Hall i) as (a & g & Hu & Ha); [left|].
  simpl. unfold bind. rewrite (destroyById_live i s m a g Hm HR Hu Ha).
  match goal with |- context [destroy_each keys ?t] =>
    destruct (IH t (<[i := None]> m) eq_refl HR Hnd) as (s' & E & H1 & H2 & H3 & H4 & H5)
  end.
  { intros j Hj. assert (j <> i) by (intros ->; done).
    rewrite lookup_insert_ne by done. sim. apply Hall. by right. }
  exists s'. split; [exact E|]. split; [done|]. sim.
  split; [simpl in H2; lia|].
  split; [rewrite H3, !count_cons; simpl; lia|].
  split; [|rewrite H5; unfold requests; by rewrite !count_cons].
  intros k. rewrite H4. unfold reqs. by rewrite !count_cons.
Qed.

Lemma ownKeys_NoDup (m : gmap nat (option nat)) : NoDup (ownKeys m).
Proof.
  unfold ownKeys. rewrite merge_sort_Permutation. apply NoDup_fst_map_to_list.
Qed.

Lemma ownKeys_length (m : gmap nat (option nat)) : length (ownKeys m) = size m.
Proof.
  unfold ownKeys. rewrite merge_sort_Permutation, length_fmap.
  apply length_map_to_list.
Qed.

(** X5: in every state of a run in which every entry of the map is a record,
    [destroy()] returns normally and releases the map and the renderer; it
    returns one batch entry to the pool per record and sends no request; for
    every key other than the sentinel it decrements the count once per record
    that holds the key, so that afterwards every request sent for the key has
    been matched by a decrement. *)
Theorem destroy_releases_every_record (uqb : QuadBounds)
    (acts : list Action) (R : Renderer) (m : gmap nat (option nat)) :
  _gpuText (reached uqb acts R) = Some m ->
  (forall i v, m !! i = Some v -> is_Some v) ->
  exists s',
    destroy (reached uqb acts R) = Ok tt s' /\
    _gpuText s' = None /\ _renderer s' = None /\
    length (pool s') = size m + length (pool (reached uqb acts R)) /\
    count is_release (log s') = size m + count is_release (log (reached uqb acts R)) /\
    requests (log s') = requests (log (reached uqb acts R)) /\
    forall k, k <> sentinel ->
      decs k (log s')
      = decs k (log (reached uqb acts R)) + holding k (reached uqb acts R) /\
      reqs k (log s') = decs k (log s').
Proof.
  intros Hm Hall.
  pose proof (run_Inv uqb false acts (init R) (init_Inv false R) ltac:(done))
    as Hs.
  fold (reached uqb acts R) in Hs.
  set (s := reached uqb acts R) in *.
  pose proof Hs as (Hb & Hq & _).
  destruct (destroy_each_all (ownKeys m) s m Hm) as (s1 & E & [m1 Hm1] & H2 & H3 & H4 & H5).
  { apply (b_pipe _ Hb). by rewrite Hm. }
  { apply ownKeys_NoDup. }
  { intros i Hi. apply elem_of_ownKeys in Hi as [v Hv].
    destruct (Hall i v Hv) as [a ->].
    destruct (lookup_lt_is_Some_2 (heap s) a) as [g Ha].
    { apply (b_live_valid _ Hb i). by exists m. }
    by exists a, g. }
  rewrite ownKeys_length in H2, H3.
  pose proof (destroy_pres false s Hs ltac:(done)) as (_ & Hq' & _).
  assert (Ed : destroy s = Ok tt (set_renderer None (set_gpuText None s1))).
  { unfold destroy. unfold bind at 1. by rewrite Hm, E. }
  rewrite Ed in Hq'. sim.
  exists (set_renderer None (set_gpuText None s1)). split; [done|]. sim.
  do 5 (split; [done|]).
  intros k Hk.
  pose proof (a_balance _ Hq k Hk) as B. pose proof (a_balance _ Hq' k Hk) as B'.
  sim. unfold holding in B' at 1. sim. rewrite H4 in B'.
  rewrite H4. split; lia.
Qed.

Lemma destroy_releases_every_record_witness :
  exists s',
    destroy (reached sampleQuadBounds twoShown sampleRenderer) = Ok tt s' /\
    _gpuText s' = None /\ _renderer s' = None /\
    length (pool s')
    = size ({[1 := Some 0; 2 := Some 1]} : gmap nat (option nat))
      + length (pool (reached sampleQuadBounds twoShown sampleRenderer)) /\
    count is_release (log s')
    = size ({[1 := Some 0; 2 := Some 1]} : gmap nat (option nat))
      + count is_release (log (reached sampleQuadBounds twoShown sampleRenderer)) /\
    requests (log s') = requests (log (reached sampleQuadBounds twoShown sampleRenderer)) /\
    forall k, k <> sentinel ->
      decs k (log s')
      = decs k (log (reached sampleQuadBounds twoShown sampleRenderer))
        + holding k (reached sampleQuadBounds twoShown sampleRenderer) /\
      reqs k (log s') = decs k (log s').
Proof.
  apply (destroy_releases_every_record sampleQuadBounds twoShown sampleRenderer
           {[1 := Some 0; 2 := Some 1]}).
  - vm_compute. reflexivity.
  - apply (bool_decide_unpack
             (map_Forall (fun _ v => is_Some v)
                ({[1 := Some 0; 2 := Some 1]} : gmap nat (option nat)))).
    vm_compute. exact I.
Defined.

(** X6: once [destroy()] has released the map, validate, add, update and
    [destroyRenderable] throw a TypeError at their first read of the map and
    change nothing, whatever the renderable; a second [destroy()] runs no
    iteration and returns normally. *)
Theorem released_pipe_rejects_every_call (uqb : QuadBounds) (s : State) (uid : nat) :
  _gpuText s = None ->
  validateRenderable uid s = Throw TypeError s /\
  addRenderable uqb uid s = Throw TypeError s /\
  updateRenderable uqb uid s = Throw TypeError s /\
  _updateText uqb uid s = Throw TypeError s /\
  destroyRenderable uid s = Throw TypeError s /\
  destroy s = Ok tt (set_renderer None (set_gpuText None s)).
Proof.
  intros Hm.
  assert (G : forall {A} (k : nat -> M A),
            bind (_getGpuText uid) k s = Throw TypeError s).
  { intros A k. unfold _getGpuText, bind, this_gpuText. by rewrite Hm. }
  split; [apply G|]. split; [apply G|]. split; [apply G|]. split.
  { unfold _updateText. unfold bind at 1. unfold viewOf.
    destruct (scene s !! uid); [|done]. apply G. }
  split.
  { unfold destroyRenderable, _destroyRenderableById, bind, this_gpuText. by rewrite Hm. }
  unfold destroy, bind, modify. by rewrite Hm.
Qed.

Lemma released_pipe_rejects_every_call_witness :
  validateRenderable 1 tornDown = Throw TypeError tornDown /\
  addRenderable sampleQuadBounds 1 tornDown = Throw TypeError tornDown /\
  updateRenderable sampleQuadBounds 1 tornDown = Throw TypeError tornDown /\
  _updateText sampleQuadBounds 1 tornDown = Throw TypeError tornDown /\
  destroyRenderable 1 tornDown = Throw TypeError tornDown /\
  destroy tornDown = Ok tt (set_renderer None (set_gpuText None tornDown)).
Proof.
  apply (released_pipe_rejects_every_call sampleQuadBounds tornDown 1).
  vm_compute. reflexivity.
Defined.

(** What add and update leave, counted. *)
Lemma after_step_counts (uqb : QuadBounds) ev uid a g r R sp s :
  heap s !! a = Some g ->
  is_request ev = false -> (forall k, is_request_for k ev = false) ->
  (forall k, is_decrement k ev = false) ->
  forall snd,
  snd = _didUpdate (view r)
        && negb (bool_decide (currentKey g = _getKey (view r)))
        && negb (generatingTexture g) ->
  _gpuText (after_step uqb ev uid a g r R sp s) = _gpuText s /\
  heap (after_step uqb ev uid a g r R sp s) !! a
  = Some (if snd then set_currentKey (_getKey (view r)) (set_generatingTexture true g)
          else g) /\
  requests (log (after_step uqb ev uid a g r R sp s)) = requests (log s) + bnat snd /\
  reqs (_getKey (view r)) (log (after_step uqb ev uid a g r R sp s))
  = reqs (_getKey (view r)) (log s) + bnat snd /\
  decs (currentKey g) (log (after_step uqb ev uid a g r R sp s))
  = decs (currentKey g) (log s) + bnat snd /\
  length (pending (after_step uqb ev uid a g r R sp s)) = length (pending s) + bnat snd.
Proof.
  intros Ha E1 E2 E3 snd ->.
  assert (Hlt : a < length (heap s)) by (by eapply lookup_lt_Some).
  unfold after_step, regenerate, recompute_bounds, clear_didUpdate, begin_regeneration,
    requests, reqs, decs.
  destruct (_didUpdate (view r)); [|norm; rewrite !count_cons, E1, E2, E3; simpl;
                                    split_and!; try done; lia].
  case_bool_decide as Hk; [norm; rewrite !count_cons, E1, E2, E3; simpl;
                           split_and!; try done; lia|].
  destruct (generatingTexture g) eqn:Hg;
    [norm; rewrite !count_cons, E1, E2, E3; simpl; split_and!; try done; lia|].
  norm. rewrite !count_cons, E1, E2, E3. simpl.
  rewrite !bool_decide_eq_true_2 by done. rewrite length_app. simpl.
  rewrite list_lookup_insert_eq by done.
  split_and!; try done; lia.
Qed.

(** The lookup [_getGpuText] that opens every call, read at the counts: the
    record it returns holds the key and the flag the call goes on with. *)
Lemma getGpuText_touch uid s r :
  basic s -> is_Some (_gpuText s) -> scene s !! uid = Some r ->
  exists s1 m1 a g sp l1 R,
    _getGpuText uid s = Ok a s1 /\ _gpuText s1 = Some m1 /\
    m1 !! uid = Some (Some a) /\ heap s1 !! a = Some g /\
    sprites s1 !! batchableSprite g = Some sp /\
    scene s1 !! uid = Some (mkRenderable (view r) l1) /\
    _renderer s1 = Some R /\ _renderer s = Some R /\
    currentKey g = keyBefore s uid /\
    generatingTexture g = generating_at s uid /\
    pending s1 = pending s /\ nextRequest s1 = nextRequest s /\
    requests (log s1) = requests (log s) /\
    (forall k, reqs k (log s1) = reqs k (log s)) /\
    (forall k, decs k (log s1) = decs k (log s)) /\
    (recordOf s uid = Some g /\ s1 = s \/
     recordOf s uid = None /\ s1 = first_touch uid s /\ currentKey g = sentinel).
Proof.
  intros Hb [m Hm] Hr.
  destruct (b_pipe _ Hb) as [R HR]; [by rewrite Hm|].
  destruct (m !! uid) as [[a|]|] eqn:Hu.
  1:{ assert (Hlive : live s uid a) by (by apply (live_eq s m)).
    destruct (lookup_lt_is_Some_2 (heap s) a) as [g Ha]; [by eapply b_live_valid|].
    destruct (lookup_lt_is_Some_2 (sprites s) (batchableSprite g)) as [sp Hsp];
      [by eapply b_sprite_valid|].
    assert (Hrec : recordOf s uid = Some g)
      by (by rewrite (recordOf_eq s m uid a Hm Hu)).
    exists s, m, a, g, sp, (destroyedListeners r), R.
    rewrite (getGpuText_live uid s m a Hm Hu).
    unfold keyBefore, generating_at. rewrite Hrec. split_and!; try done.
    - by destruct r.
    - by left. }
  all: assert (Hn : forall a, m !! uid <> Some (Some a)) by congruence.
  all: destruct (first_touch_facts uid s m r Hb Hm Hr) as (b & F1 & F2 & F3 & F4 & F5 & F6).
  all: exists (first_touch uid s), (<[uid:=Some (length (heap s))]> m), (length (heap s)),
      (mkGpuText false false EMPTY sentinel b), (freshEntry uid), (S (destroyedListeners r)), R.
  all: rewrite (getGpuText_fresh uid s m r Hm Hn Hr).
  all: pose proof (recordOf_none s m uid Hm Hn) as Hrec.
  all: unfold keyBefore, generating_at; rewrite Hrec, F6.
  all: unfold requests, reqs, decs.
  all: split_and!; try done; try congruence; try apply lookup_insert_eq.
  all: try (intros k; by rewrite !count_cons).
  all: try (by rewrite !count_cons).
  all: by right.
Qed.

Lemma step_starts (uqb : QuadBounds) s uid r act :
  basic s -> is_Some (_gpuText s) -> scene s !! uid = Some r ->
  act = Add uid \/ act = Update uid ->
  exists s',
    exec uqb act s = Ok tt s' /\
    requests (log s') = requests (log s) + bnat (sends s uid r) /\
    reqs (_getKey (view r)) (log s')
    = reqs (_getKey (view r)) (log s) + bnat (sends s uid r) /\
    decs (keyBefore s uid) (log s')
    = decs (keyBefore s uid) (log s) + bnat (sends s uid r) /\
    length (pending s') = length (pending s) + bnat (sends s uid r) /\
    generating_at s' uid = generating_at s uid || sends s uid r /\
    keyBefore s' uid = (if sends s uid r then _getKey (view r) else keyBefore s uid).
Proof.
  intros Hb Halive Hr Hact.
  destruct (getGpuText_touch uid s r Hb Halive Hr)
    as (s1 & m1 & a & g & sp & l1 & R1 & E & Hm1 & Hu1 & Ha1 & Hsp1 & Hr1 & HR1 & _ &
        Hkey & Hgen & Hp & _ & Hreq & Hreqs & Hdecs & _).
  assert (Hfin : forall ev,
    is_request ev = false -> (forall k, is_request_for k ev = false) ->
    (forall k, is_decrement k ev = false) ->
    exec uqb act s
    = Ok tt (after_step uqb ev uid a g (mkRenderable (view r) l1) R1 sp s1) ->
    exists s',
      exec uqb act s = Ok tt s' /\
      requests (log s') = requests (log s) + bnat (sends s uid r) /\
      reqs (_getKey (view r)) (log s')
      = reqs (_getKey (view r)) (log s) + bnat (sends s uid r) /\
      decs (keyBefore s uid) (log s')
      = decs (keyBefore s uid) (log s) + bnat (sends s uid r) /\
      length (pending s') = length (pending s) + bnat (sends s uid r) /\
      generating_at s' uid = generating_at s uid || sends s uid r /\
      keyBefore s' uid = (if sends s uid r then _getKey (view r) else keyBefore s uid)).
  { intros ev E1 E2 E3 Ex. eexists. split; [exact Ex|].
    destruct (after_step_counts uqb ev uid a g (mkRenderable (view r) l1) R1 sp s1
                Ha1 E1 E2 E3 (sends s uid r))
      as (C1 & C2 & C3 & C4 & C5 & C6).
    { unfold sends. by rewrite Hkey, Hgen. }
    cbn [view] in C2, C4. rewrite Hkey in C5. rewrite C3, C4, C5, C6, Hreq, Hreqs, Hdecs, Hp.
    do 4 (split; [done|]).
    unfold generating_at, keyBefore.
    rewrite (recordOf_eq _ m1 uid a) by (done || congruence). rewrite C2.
    fold (generating_at s uid). fold (keyBefore s uid). rewrite <- Hgen, <- Hkey.
    destruct (sends s uid r) eqn:Hs; simpl.
    - by rewrite orb_true_r.
    - by rewrite orb_false_r. }
  destruct Hact as [-> | ->]; simpl.
  - apply (Hfin (AddToBatch (batchableSprite g))); try done.
    cbn [exec]. unfold addRenderable.
    rewrite (getGpuText_absorb _ uid _ s1 m1 a E Hm1 Hu1).
    apply (addRenderable_live uqb uid s1 m1 a g _ R1 _ Hm1 Hu1 Ha1 Hr1 HR1 Hsp1).
  - apply (Hfin (UpdateElement (batchableSprite g))); try done.
    cbn [exec]. unfold updateRenderable. rewrite (getGpuText_absorb _ uid _ s1 m1 a E Hm1 Hu1).
    apply (updateRenderable_live uqb uid s1 m1 a g _ R1 _ Hm1 Hu1 Ha1 Hr1 HR1 Hsp1).
Qed.



Lemma step_request (uqb : QuadBounds) s uid r g R act :
  basic s -> recordOf s uid = Some g -> scene s !! uid = Some r ->
  _renderer s = Some R -> sends s uid r = true ->
  act = Add uid \/ act = Update uid ->
  exists s' a,
    exec uqb act s = Ok tt s' /\
    log s'
    = (match act with
       | Add _ => AddToBatch (batchableSprite g)
       | _ => UpdateElement (batchableSprite g)
       end)
      :: GetManagedTexture (text (view r))
           (default (rendererResolution R) (resolution (view r)))
           (_style (view r)) (_getKey (view r)) (nextRequest s)
      :: DecreaseReferenceCount (currentKey g) :: log s /\
    recordOf s' uid
    = Some (mkGpuText (textureNeedsUploading g) true (texture g) (_getKey (view r))
              (batchableSprite g)) /\
    pending s' = pending s ++ [mkSuspended (nextRequest s) uid a (_getKey (view r))] /\
    live s uid a /\
    nextRequest s' = S (nextRequest s) /\
    BatchableSprite.texture <$> entryOf s' uid = BatchableSprite.texture <$> entryOf s uid /\
    flagOf s' uid = Some false.
Proof.
  intros Hb Hrec Hr HR Hs Hact.
  pose proof Hrec as Hrec'. apply recordOf_live in Hrec' as (a & Hl & Ha).
  pose proof Hl as (m & Hm & Hu).
  destruct (lookup_lt_is_Some_2 (sprites s) (batchableSprite g)) as [sp Hsp];
    [by eapply b_sprite_valid|].
  assert (Hlt : a < length (heap s)) by (by eapply lookup_lt_Some).
  assert (Hlts : batchableSprite g < length (sprites s)) by (by eapply lookup_lt_Some).
  unfold sends, keyBefore, generating_at in Hs. rewrite Hrec in Hs. simpl in Hs.
  apply andb_true_iff in Hs as [Hs Hg]. apply andb_true_iff in Hs as [Hd Hk].
  apply negb_true_iff in Hg. apply negb_true_iff in Hk.
  assert (Hent : entryOf s uid = Some sp).
  { unfold entryOf. rewrite Hrec. done. }
  assert (Hfin : forall ev,
    let s' := after_step uqb ev uid a g r R sp s in
    log s'
    = ev :: GetManagedTexture (text (view r))
           (default (rendererResolution R) (resolution (view r)))
           (_style (view r)) (_getKey (view r)) (nextRequest s)
      :: DecreaseReferenceCount (currentKey g) :: log s /\
    recordOf s' uid
    = Some (mkGpuText (textureNeedsUploading g) true (texture g) (_getKey (view r))
              (batchableSprite g)) /\
    pending s' = pending s ++ [mkSuspended (nextRequest s) uid a (_getKey (view r))] /\
    live s uid a /\
    nextRequest s' = S (nextRequest s) /\
    BatchableSprite.texture <$> entryOf s' uid = BatchableSprite.texture <$> entryOf s uid /\
    flagOf s' uid = Some false).
  { intros ev. cbv zeta. unfold entryOf at 1. unfold recordOf, flagOf.
    unfold after_step, regenerate, begin_regeneration, recompute_bounds, clear_didUpdate.
    rewrite Hd, Hk, Hg. norm. rewrite Hm. simpl. rewrite Hu. simpl.
    rewrite list_lookup_insert_eq by done. simpl.
    rewrite list_lookup_insert_eq by done. rewrite Hent. simpl.
    rewrite !lookup_alter_eq, Hr. simpl. split_and!; done. }
  exists (after_step uqb (match act with
                          | Add _ => AddToBatch (batchableSprite g)
                          | _ => UpdateElement (batchableSprite g)
                          end) uid a g r R sp s), a.
  split; [|apply Hfin].
  destruct Hact as [-> | ->]; cbn [exec].
  - by apply (addRenderable_live uqb uid s m a g r R sp).
  - by apply (updateRenderable_live uqb uid s m a g r R sp).
Qed.



Lemma recordOf_released uid g s : recordOf (released uid g s) uid = None.
Proof.
  unfold recordOf, released. sim. destruct (_gpuText s) as [m|]; [|done]. simpl.
  by rewrite lookup_insert_eq.
Qed.

(** A second handler of ['destroyed'] finds no record. *)
Lemma fire_twice s uid n :
  basic s ->
  exists s', fire_destroyed (S (S n)) uid s = Throw TypeError s' /\
             recordOf s' uid = None /\
             count is_release (log s') <= 1 + count is_release (log s).
Proof.
  intros Hb. pose proof (destroyById_outcome uid s Hb) as E.
  change (fire_destroyed (S (S n)) uid)
    with (destroyRenderable uid ;; (destroyRenderable uid ;; fire_destroyed n uid)).
  unfold bind, destroyRenderable.
  destruct (recordOf s uid) as [g|] eqn:Hrec.
  - rewrite E.
    assert (E2 : _destroyRenderableById uid (released uid g s)
                 = Throw TypeError (released uid g s)).
    { apply recordOf_live in Hrec as (a & (m & Hm & Hu) & Ha).
      apply (destroyById_dead uid _ (<[uid := None]> m)).
      - unfold released. sim. by rewrite Hm.
      - intros a'. by rewrite lookup_insert_eq. }
    rewrite E2. exists (released uid g s). split; [done|].
    split; [apply recordOf_released|].
    unfold released. sim. rewrite !count_cons. simpl. lia.
  - rewrite E. exists s. split; [done|]. split; [done|]. lia.
Qed.

(** X9: [_initGpuText] registers a ['destroyed'] listener each time it
    creates a record and none is ever removed.  In every state of a run, when
    a renderable that carries two or more of these listeners emits
    ['destroyed'], the emission ends in a TypeError: the first handler
    destroys the record, if there is one, and the next one finds [null]; at
    most one entry goes back to the pool. *)
Theorem repeated_listener_faults (uqb : QuadBounds)
    (acts : list Action) (R : Renderer) (uid : nat) (r : Renderable) :
  scene (reached uqb acts R) !! uid = Some r ->
  2 <= destroyedListeners r ->
  exists s',
    exec uqb (EmitDestroyed uid) (reached uqb acts R) = Throw TypeError s' /\
    recordOf s' uid = None /\
    count is_release (log s') <= 1 + count is_release (log (reached uqb acts R)).
Proof.
  intros Hr Hn. cbn [exec]. rewrite Hr.
  destruct (destroyedListeners r) as [|[|n]]; [lia|lia|].
  apply fire_twice, run_basic.
Qed.

Lemma repeated_listener_faults_witness :
  exists s',
    exec sampleQuadBounds (EmitDestroyed 1)
      (reached sampleQuadBounds shownAgain sampleRenderer) = Throw TypeError s' /\
    recordOf s' 1 = None /\
    count is_release (log s')
    <= 1 + count is_release (log (reached sampleQuadBounds shownAgain sampleRenderer)).
Proof.
  apply (repeated_listener_faults sampleQuadBounds shownAgain sampleRenderer 1
           (mkRenderable (set_didUpdate false (sampleView "A")) 2)).
  - vm_compute. reflexivity.
  - simpl. lia.
Defined.

(** X10: in every state of every run, the record a suspended call waits on
    holds the key the call asked the provider for: the record took the key
    when the request went out, and no step changes the key of a record that
    is waiting for a texture. *)
Theorem outstanding_request_matches_record (uqb : QuadBounds)
    (acts : list Action) (R : Renderer) (p : Suspended) :
  p ∈ pending (reached uqb acts R) ->
  exists g, heap (reached uqb acts R) !! s_gpuText p = Some g /\
            generatingTexture g = true /\ currentKey g = s_key p.
Proof. apply (b_pending_rec _ (run_basic uqb acts R)). Qed.

Lemma outstanding_request_matches_record_witness :
  exists g, heap (reached sampleQuadBounds twoShown sampleRenderer)
              !! s_gpuText (mkSuspended 1 2 1 "B") = Some g /\
            generatingTexture g = true /\ currentKey g = s_key (mkSuspended 1 2 1 "B").
Proof.
  apply (outstanding_request_matches_record sampleQuadBounds twoShown sampleRenderer).
  vm_compute. left.
Defined.

(** ** A record whose request failed *)

Lemma abandoned_ext a t k s s' :
  heap s' !! a = heap s !! a -> pending s' = pending s ->
  abandoned a t k s -> abandoned a t k s'.
Proof. intros Hh Hp [Hg Hn]. split; [by rewrite Hh|by rewrite Hp]. Qed.

Lemma stays_ret a {A} (x : A) : stays a (ret x).
Proof. by intros t k s. Qed.

Lemma stays_throw a {A} e : stays a (@throw A e).
Proof. by intros t k s. Qed.

Lemma stays_bind a {A B} (m : M A) (f : A -> M B) :
  stays a m -> (forall x, stays a (f x)) -> stays a (bind m f).
Proof.
  intros Hm Hf t k s Hab. unfold bind. specialize (Hm t k s Hab).
  destruct (m s) as [x s'|e s']; [by apply Hf|done].
Qed.

Lemma stays_read a {A} (m : M A) : (forall s, state_of (m s) = s) -> stays a m.
Proof. intros H t k s Hab. by rewrite H. Qed.

Lemma stays_modify a f :
  (forall s, heap (f s) = heap s /\ pending (f s) = pending s) -> stays a (modify f).
Proof.
  intros H t k s. destruct (H s) as [Hh Hp]. apply abandoned_ext; [|done].
  unfold modify. sim. by rewrite Hh.
Qed.

Lemma stays_viewOf a uid : stays a (viewOf uid).
Proof. apply stays_read. intros s. unfold viewOf. by destruct (scene s !! uid). Qed.

Lemma stays_this_gpuText a : stays a this_gpuText.
Proof. apply stays_read. intros s. unfold this_gpuText. by destruct (_gpuText s). Qed.

Lemma stays_this_renderer a : stays a this_renderer.
Proof. apply stays_read. intros s. unfold this_renderer. by destruct (_renderer s). Qed.

Lemma stays_read_gpuText a a' : stays a (read_gpuText a').
Proof. apply stays_read. intros s. unfold read_gpuText. by destruct (heap s !! a'). Qed.

Lemma stays_read_sprite a b : stays a (read_sprite b).
Proof. apply stays_read. intros s. unfold read_sprite. by destruct (sprites s !! b). Qed.

Lemma stays_emit a ev : stays a (emit ev).
Proof. by apply stays_modify. Qed.

Lemma stays_write_sprite a b sp : stays a (write_sprite b sp).
Proof. by apply stays_modify. Qed.

Lemma stays_BigPool_return a b : stays a (BigPool_return b).
Proof. by apply stays_modify. Qed.

Lemma stays_BigPool_get a : stays a BigPool_get.
Proof.
  intros t k s. unfold BigPool_get. by destruct (pool s); apply abandoned_ext.
Qed.

Lemma stays_fresh_request a : stays a fresh_request.
Proof. intros t k s. by apply abandoned_ext. Qed.

Lemma stays_new_gpuText a g : stays a (new_gpuText g).
Proof.
  intros t k s Hab. eapply abandoned_ext; [| |exact Hab]; [|done].
  unfold new_gpuText. sim. destruct Hab as [(g0 & Hg0 & _) _].
  apply lookup_app_l. by eapply lookup_lt_Some.
Qed.

Lemma stays_suspend a p : s_gpuText p <> a -> stays a (suspend p).
Proof.
  intros Hne t k s [Hg Hn]. split; [done|]. unfold suspend, modify. sim.
  rewrite fmap_app. simpl. rewrite elem_of_app, list_elem_of_singleton.
  intros [?|?]; [done|]. by apply Hne.
Qed.

Lemma stays_write_other a a' g : a' <> a -> stays a (write_gpuText a' g).
Proof.
  intros Hne t k s. apply abandoned_ext; [|done].
  unfold write_gpuText, modify. sim. by apply list_lookup_insert_ne.
Qed.

Lemma stays_assign_other a a' f : a' <> a -> stays a (assign_gpuText a' f).
Proof.
  intros Hne. unfold assign_gpuText. apply stays_bind; [apply stays_read_gpuText|].
  intros g. by apply stays_write_other.
Qed.

(** Validate clears [textureNeedsUploading] and nothing else. *)
Lemma stays_assign_upload a a' b :
  stays a (assign_gpuText a' (set_textureNeedsUploading b)).
Proof.
  destruct (decide (a' = a)) as [->|Hne]; [|by apply stays_assign_other].
  intros t k s [(g & Hg & Hf & Ht & Hk) Hn].
  unfold assign_gpuText, bind, read_gpuText, write_gpuText, modify. rewrite Hg. sim.
  split; [|done]. exists (set_textureNeedsUploading b g).
  split; [|done]. apply list_lookup_insert_eq. by eapply lookup_lt_Some.
Qed.

Lemma stays_catch a m : stays a m -> stays a (catch_console m).
Proof.
  intros Hm t k s Hab. unfold catch_console. specialize (Hm t k s Hab).
  destruct (m s) as [x s'|e s']; [done|]. sim. by eapply abandoned_ext; [| |exact Hm].
Qed.

#[local] Hint Resolve stays_ret stays_throw stays_viewOf stays_this_gpuText
  stays_this_renderer stays_read_gpuText stays_read_sprite stays_emit
  stays_write_sprite stays_BigPool_return stays_BigPool_get stays_fresh_request
  stays_new_gpuText stays_assign_upload stays_catch : stuck.
#[local] Hint Resolve stays_bind | 2 : stuck.
#[local] Hint Extern 1 (stays _ (modify _)) => (by apply stays_modify) : stuck.
#[local] Hint Extern 1 (stays _ (suspend _)) => (by apply stays_suspend) : stuck.
#[local] Hint Extern 1 (stays _ (assign_gpuText _ _)) =>
  (by apply stays_assign_other) : stuck.
#[local] Hint Extern 2 (stays _ (if ?b then _ else _)) => destruct b : stuck.
#[local] Hint Extern 2 (stays _ (match ?m !! ?i with _ => _ end)) =>
  destruct (m !! i) as [[|]|] : stuck.

Lemma stays_assign_view a uid f : stays a (assign_view uid f).
Proof. unfold assign_view. eauto with stuck. Qed.

Lemma stays_store_gpuText a uid v : stays a (store_gpuText uid v).
Proof. unfold store_gpuText. eauto with stuck. Qed.

Lemma stays_assign_sprite a b f : stays a (assign_sprite b f).
Proof. unfold assign_sprite. eauto with stuck. Qed.

Lemma stays_on_destroyed a uid : stays a (on_destroyed uid).
Proof. unfold on_destroyed. eauto 10 with stuck. Qed.

Lemma stays_onUpdate a uid : stays a (onUpdate uid).
Proof. unfold onUpdate. pose proof stays_assign_view. eauto with stuck. Qed.

#[local] Hint Resolve stays_assign_view stays_store_gpuText stays_assign_sprite
  stays_on_destroyed stays_onUpdate : stuck.

Lemma getGpuText_stays a uid : stays a (_getGpuText uid).
Proof. unfold _getGpuText, _initGpuText. eauto 30 with stuck. Qed.

#[local] Hint Resolve getGpuText_stays : stuck.

Lemma validateRenderable_stays a uid : stays a (validateRenderable uid).
Proof. unfold validateRenderable. eauto 30 with stuck. Qed.

(** [_updateGpuText] writes the flag and the key only to a record whose flag
    is down. *)
Lemma updateGpuText_stays a uid : stays a (_updateGpuText uid).
Proof.
  unfold _updateGpuText.
  apply stays_bind; [eauto with stuck|]. intros _.
  apply stays_bind; [eauto with stuck|]. intros gpuText.
  intros t k s Hab. unfold bind at 1. unfold read_gpuText.
  destruct (heap s !! gpuText) as [g0|] eqn:E; [|done].
  destruct (generatingTexture g0) eqn:Hg0; [done|].
  assert (Hne : gpuText <> a).
  { intros ->. destruct Hab as [(g & Hg & Hf & _) _]. congruence. }
  match goal with |- abandoned _ _ _ (state_of (?m s)) =>
    assert (St : stays a m) by eauto 40 with stuck
  end.
  by apply St.
Qed.

#[local] Hint Resolve validateRenderable_stays updateGpuText_stays : stuck.

Lemma destroyById_stays a uid : stays a (_destroyRenderableById uid).
Proof. unfold _destroyRenderableById. eauto 30 with stuck. Qed.

Lemma destroy_each_stays a keys : stays a (destroy_each keys).
Proof.
  induction keys as [|i keys IH]; simpl; [apply stays_ret|].
  apply stays_bind; [apply destroyById_stays|done].
Qed.

Lemma fire_destroyed_stays a n uid : stays a (fire_destroyed n uid).
Proof.
  induction n as [|n IH]; simpl; [apply stays_ret|].
  apply stays_bind; [apply destroyById_stays|done].
Qed.

Lemma destroy_stays a : stays a destroy.
Proof.
  unfold destroy. apply stays_bind; [|eauto with stuck].
  intros t k s Hab. destruct (_gpuText s); [by apply destroy_each_stays|done].
Qed.

Section Stuck.

Variable uqb : Bounds -> Z * Z -> Texture -> Z -> Bounds.

Lemma updateText_stays a uid : stays a (_updateText uqb uid).
Proof. unfold _updateText. eauto 40 with stuck. Qed.

Lemma addRenderable_stays a uid : stays a (addRenderable uqb uid).
Proof. pose proof updateText_stays. unfold addRenderable. eauto 40 with stuck. Qed.

Lemma updateRenderable_stays a uid : stays a (updateRenderable uqb uid).
Proof. pose proof updateText_stays. unfold updateRenderable. eauto 40 with stuck. Qed.

(** A completion writes to the record its call waits on, which is another. *)
Lemma resume_stays a p tex :
  s_gpuText p <> a -> stays a (_updateGpuText_resume uqb p tex).
Proof. intros Hne. unfold _updateGpuText_resume. eauto 40 with stuck. Qed.

Lemma exec_stays a act : stays a (exec uqb act).
Proof.
  destruct act as [uid v|uid v|uid|uid|uid|uid|uid| |req tex|req e]; cbn [exec].
  - apply stays_modify. intros s. by destruct (scene s !! uid).
  - by apply stays_modify.
  - apply stays_bind; [apply validateRenderable_stays|intros; apply stays_ret].
  - apply addRenderable_stays.
  - apply updateRenderable_stays.
  - apply destroyById_stays.
  - intros t k s Hab. destruct (scene s !! uid); [by apply fire_destroyed_stays|done].
  - apply destroy_stays.
  - intros t k s Hab.
    destruct (take_pending req (pending s)) as [[p rest]|] eqn:E; [|done].
    apply take_pending_Some in E as (Hp & Hreq & Hrest & Hnd).
    assert (Hne : s_gpuText p <> a).
    { intros <-. destruct Hab as [_ Hn]. apply Hn. by apply list_elem_of_fmap_2. }
    assert (Hab' : abandoned a t k (set_pending rest s)).
    { destruct Hab as [Hg Hn]. split; [done|]. sim. intros Hin.
      apply list_elem_of_fmap in Hin as (q & -> & Hq). apply Hn.
      apply list_elem_of_fmap_2. by apply Hrest. }
    revert Hab'. apply stays_catch. pose proof (resume_stays a p tex Hne).
    eauto with stuck.
  - intros t k s Hab.
    destruct (take_pending req (pending s)) as [[p rest]|] eqn:E; [|done].
    apply take_pending_Some in E as (Hp & Hreq & Hrest & Hnd). sim.
    destruct Hab as [Hg Hn]. split; [done|]. sim. intros Hin.
    apply list_elem_of_fmap in Hin as (q & -> & Hq). apply Hn.
    apply list_elem_of_fmap_2. by apply Hrest.
Qed.

Lemma run_stays a t k acts s :
  abandoned a t k s -> abandoned a t k (run uqb acts s).
Proof.
  revert s. induction acts as [|act acts IH]; intros s Hab; [done|].
  simpl. apply IH. by apply exec_stays.
Qed.

End Stuck.

Lemma abandoned_generating a t k s uid r :
  abandoned a t k s -> live s uid a ->
  generating_at s uid = true /\ keyBefore s uid = k /\ sends s uid r = false.
Proof.
  intros [(g & Hg & Hf & Ht & Hk) _] (m & Hm & Hu).
  unfold sends, keyBefore, generating_at.
  rewrite (recordOf_eq s m uid a Hm Hu), Hg. simpl. rewrite Hf. simpl.
  by rewrite andb_false_r.
Qed.




